(** * buttplug-js: the leveled logger and the websocket client

    A shallow embedding of [src/core/Logging.ts] (the [LogLevel] enumeration,
    [LogMessage] and [ButtplugLogger.AddLogMessage] with its level methods)
    and of [src/client/WebsocketClient.ts] (the [ButtplugWebsocketClient]
    class: [Connected], [Connect], [Disconnect], [Send] and the inbound frame
    path), followed by the properties proved about them. *)

From stdpp Require Import base list strings pretty.
From Stdlib Require Import ZArith Lia.

Open Scope string_scope.
Open Scope list_scope.

(** ** src/core/Logging.ts *)

(** [enum LogLevel]: a TypeScript numeric enumeration, members numbered from 0
    in declaration order. *)
Module LogLevel.

Inductive t : Type := Off | Fatal | Error | Warn | Info | Debug | Trace.

(** The number a member compiles to; [<=] and [>] in the source compare
    these numbers. *)
Definition value (l : t) : Z :=
  match l with
  | Off => 0 | Fatal => 1 | Error => 2 | Warn => 3
  | Info => 4 | Debug => 5 | Trace => 6
  end%Z.

(** The reverse mapping [LogLevel[x]] of a numeric enum: the member's name. *)
Definition name (l : t) : string :=
  match l with
  | Off => "Off" | Fatal => "Fatal" | Error => "Error" | Warn => "Warn"
  | Info => "Info" | Debug => "Debug" | Trace => "Trace"
  end.

Definition leb (a b : t) : bool := (value a <=? value b)%Z.
Definition gtb (a b : t) : bool := (value a >? value b)%Z.

#[global] Instance eq_dec : EqDecision t.
Proof. solve_decision. Defined.

End LogLevel.

Module Logging.

(** What [new Date()] hands to the [LogMessage] constructor. *)
Record Date : Type := { getHours : nat; getMinutes : nat; getSeconds : nat }.

(** [class LogMessage]: the three private fields. *)
Record LogMessage : Type := {
  timestamp : string;
  logMessage : string;
  logLevel : LogLevel.t
}.

(** The constructor; a template literal prints a number in decimal, without
    padding. [now] is the clock reading of [new Date()]. *)
Definition new_LogMessage (now : Date) (aMsg : string) (aLevel : LogLevel.t)
  : LogMessage :=
  {| timestamp := pretty (getHours now) +:+ ":" +:+ pretty (getMinutes now)
                  +:+ ":" +:+ pretty (getSeconds now);
     logMessage := aMsg;
     logLevel := aLevel |}.

(** The getter [FormattedMessage]. *)
Definition FormattedMessage (m : LogMessage) : string :=
  LogLevel.name (logLevel m) +:+ " : " +:+ timestamp m +:+ " : " +:+ logMessage m.

(** [class ButtplugLogger]: the three configuration fields, with the
    initial values of their declarations. *)
Record ButtplugLogger : Type := {
  logToConsole : bool;
  maximumConsoleLogLevel : LogLevel.t;
  maximumLogLevel : LogLevel.t
}.

Definition new_ButtplugLogger : ButtplugLogger :=
  {| logToConsole := false;
     maximumConsoleLogLevel := LogLevel.Off;
     maximumLogLevel := LogLevel.Off |}.

(** The setters. *)
Definition set_MaximumConsoleLogLevel (aLogLevel : LogLevel.t)
  (lg : ButtplugLogger) : ButtplugLogger :=
  {| logToConsole := logToConsole lg;
     maximumConsoleLogLevel := aLogLevel;
     maximumLogLevel := maximumLogLevel lg |}.

Definition set_MaximumLogLevel (aLogLevel : LogLevel.t)
  (lg : ButtplugLogger) : ButtplugLogger :=
  {| logToConsole := logToConsole lg;
     maximumConsoleLogLevel := maximumConsoleLogLevel lg;
     maximumLogLevel := aLogLevel |}.

Definition set_ConsoleLogging (aShouldLog : bool)
  (lg : ButtplugLogger) : ButtplugLogger :=
  {| logToConsole := aShouldLog;
     maximumConsoleLogLevel := maximumConsoleLogLevel lg;
     maximumLogLevel := maximumLogLevel lg |}.

(** What one call of [AddLogMessage] does to the outside, in program order:
    it builds a record ([new LogMessage], which reads the clock), prints a
    line with [console.log], and emits an event to the subscribers. The
    logger's own fields are read, never written, by a log call. *)
Inductive Action : Type :=
| Constructed (m : LogMessage)
| ConsoleLog (line : string)
| Emit (event : string) (m : LogMessage).

(** [AddLogMessage], lines 200-216. *)
Definition AddLogMessage (now : Date) (aMsg : string) (aLevel : LogLevel.t)
  (lg : ButtplugLogger) : list Action :=
  if LogLevel.gtb aLevel (maximumLogLevel lg)
     && LogLevel.gtb aLevel (maximumConsoleLogLevel lg)
  then []
  else
    let msg := new_LogMessage now aMsg aLevel in
    [Constructed msg]
    ++ (if logToConsole lg && LogLevel.leb aLevel (maximumConsoleLogLevel lg)
        then [ConsoleLog (FormattedMessage msg)] else [])
    ++ (if LogLevel.leb aLevel (maximumLogLevel lg)
        then [Emit "log" msg] else []).

(** The public level methods. *)
Definition Fatal now (aMsg : string) := AddLogMessage now aMsg LogLevel.Fatal.
Definition Error now (aMsg : string) := AddLogMessage now aMsg LogLevel.Error.
Definition Warn now (aMsg : string) := AddLogMessage now aMsg LogLevel.Warn.
Definition Info now (aMsg : string) := AddLogMessage now aMsg LogLevel.Info.
Definition Debug now (aMsg : string) := AddLogMessage now aMsg LogLevel.Debug.
Definition Trace now (aMsg : string) := AddLogMessage now aMsg LogLevel.Trace.

(** Observations on the actions of a call. *)
Definition is_Constructed (a : Action) : bool :=
  match a with Constructed _ => true | _ => false end.

Definition console_lines (out : list Action) : list string :=
  omap (fun a => match a with ConsoleLog l => Some l | _ => None end) out.
Definition log_events (out : list Action) : list LogMessage :=
  omap (fun a => match a with Emit "log" m => Some m | _ => None end) out.
Definition records_built (out : list Action) : nat :=
  length (filter (fun a => is_Constructed a = true) out).

(** [static get Logger()], lines 94-99. The argument is the static field
    [sLogger] ([None] for [undefined]); the result is the instance returned
    and the field afterwards. There is at most one instance, so it is given
    by its fields: what is written through the returned reference is written
    to the stored instance. *)
Definition Logger (sLogger : option ButtplugLogger)
  : ButtplugLogger * option ButtplugLogger :=
  match sLogger with
  | None => (new_ButtplugLogger, Some new_ButtplugLogger)
  | Some l => (l, sLogger)
  end.

(** [ButtplugLogger.Logger.X = v] for a setter [X]: the instance is fetched
    and the setter runs on it. *)
Definition on_Logger (setter : ButtplugLogger -> ButtplugLogger)
  (sLogger : option ButtplugLogger) : option ButtplugLogger :=
  Some (setter (Logger sLogger).1).

Section LogAndError.

(** [Messages.ErrorClass], [number] and the constructor of [Messages.Error]
    ([./Messages], not part of this development), as [LogAndError] uses
    them. *)
Variable ButtplugMessage : Type.
Variable ErrorClass : Type.
Variable number : Type.
Variable new_Error : string -> ErrorClass -> number -> ButtplugMessage.

(** [LogAndError], lines 149-152: the actions of the log call and the
    message returned. *)
Definition LogAndError (now : Date) (aMsg : string) (aErrorClass : ErrorClass)
  (aMsgId : number) (lg : ButtplugLogger) : list Action * ButtplugMessage :=
  let out := Error now aMsg lg in
  (out, new_Error aMsg aErrorClass aMsgId).

End LogAndError.

End Logging.

(** ** src/client/WebsocketClient.ts *)

(** A small codec to run the client with in examples: a message is a
    number, and three frames are known to the decoder. *)
Module SampleCodec.

Definition Message : Type := nat.

Definition FromJSON (text : string) : string + list Message :=
  if String.eqb text "[1,2]" then inr [1; 2]
  else if String.eqb text "[7]" then inr [7]
  else if String.eqb text "[]" then inr []
  else inl "SyntaxError".

Definition toJSON (m : Message) : string := pretty m.

End SampleCodec.

Module WebsocketClient.

Section Client.

(** The message catalogue ([../core/Messages], not part of this
    development) enters through what the class uses of it: the message type,
    the decoder [FromJSON], which either throws (on malformed text) or
    returns the decoded messages, and the method [toJSON] of a message,
    which always returns. *)
Variable ButtplugMessage : Type.
Variable CodecError : Type.
Variable FromJSON : string -> CodecError + list ButtplugMessage.
Variable toJSON : ButtplugMessage -> string.

(** What a [throw] carries: [new Error(message)], the [TypeError] of a
    method call on [undefined], or whatever the decoder threw. *)
Inductive Exception : Type :=
| JsError (message : string)
| TypeError
| DecodeFailure (e : CodecError).

(** The [data] of a [MessageEvent], by the two tests of
    [ParseIncomingMessage]: a string, a [Blob] (given by the text it holds),
    or anything else. *)
Inductive EventData : Type :=
| StringData (s : string)
| BlobData (text : string)
| OtherData.

(** The callbacks the class registers on a socket. Sockets and the promises
    returned by [Connect] live in the stores of [Client] below and are named
    by their index there.
    - [open_listener ws p]: the async arrow function that [Connect] registers
      for "open"; it captures the socket [ws] and [res]/[rej] of promise [p];
    - [message_listener]: [(aMsg) => { this.ParseIncomingMessage(aMsg); }];
    - [conErrorCallback p]: [(ev) => { rej(ev); }] for promise [p];
    - [this_Disconnect]: the property [this.Disconnect]. *)
Inductive Listener : Type :=
| open_listener (ws p : nat)
| message_listener
| conErrorCallback (p : nat)
| this_Disconnect.

(** Identity of callbacks, as [addEventListener] and [removeEventListener]
    compare them: [conErrorCallback] of one call and [this.Disconnect] are
    each one function object; the two arrow functions are created anew each
    time they are registered, so a new one equals none already there. *)
Definition same_callback (a b : Listener) : bool :=
  match a, b with
  | conErrorCallback p, conErrorCallback q => bool_decide (p = q)
  | this_Disconnect, this_Disconnect => true
  | _, _ => false
  end.

(** A [WebSocket] object: its url and its listener list, in registration
    order, each listener with the event type it was registered for. *)
Record WebSocket : Type := {
  url : string;
  listeners : list (string * Listener)
}.

Definition same_registration (type : string) (l : Listener)
  (r : string * Listener) : bool :=
  bool_decide (r.1 = type) && same_callback r.2 l.

(** [ws.addEventListener(type, l)]: nothing happens when the same callback
    is already registered for that type. *)
Definition addEventListener (type : string) (l : Listener) (w : WebSocket)
  : WebSocket :=
  if existsb (same_registration type l) (listeners w) then w
  else {| url := url w; listeners := listeners w ++ [(type, l)] |}.

Fixpoint remove_registration (type : string) (l : Listener)
  (rs : list (string * Listener)) : list (string * Listener) :=
  match rs with
  | [] => []
  | r :: rs' =>
      if same_registration type l r then rs'
      else r :: remove_registration type l rs'
  end.

(** [ws.removeEventListener(type, l)]. *)
Definition removeEventListener (type : string) (l : Listener) (w : WebSocket)
  : WebSocket :=
  {| url := url w; listeners := remove_registration type l (listeners w) |}.

(** The listeners of a socket for one event type, in the order they run. *)
Definition listeners_for (type : string) (w : WebSocket) : list Listener :=
  omap (fun r : string * Listener =>
          if bool_decide (r.1 = type) then Some r.2 else None) (listeners w).

(** The promise [p] of a [Connect] call. [rej(ev)] rejects with the close
    event (given by the socket it was fired on), [rej()] with [undefined]. *)
Inductive PromiseState : Type :=
| Pending
| Fulfilled
| Rejected (reason : option nat).

(** A promise settles once: [res] and [rej] on a settled promise do
    nothing. *)
Definition settle (new old : PromiseState) : PromiseState :=
  match old with Pending => new | _ => old end.

(** Calls that leave the class, in program order: the hooks of the base
    class [ButtplugClient] ([./Client], not part of this development), the
    methods of the stored socket, [emit] of the [EventEmitter], the start of
    a [FileReader]. [emit] records, with the event, what the getter
    [Connected] returns at that moment, which is what a subscriber running
    inside [emit] reads; likewise a call of [InitializeConnection] records
    what the hook reads of [Connected] when it is invoked.
    [reported] is an exception that left a listener and reached the host's
    event dispatcher. *)
Inductive Effect : Type :=
| call_InitializeConnection (connected : bool)
| call_ShutdownConnection
| call_ParseMessages (msgs : list ButtplugMessage)
| ws_close (ws : nat)
| ws_send (ws : nat) (data : string)
| emit (event : string) (connected : bool)
| readAsText (blob : string)
| reported (e : Exception).

(** The object and the part of the world it acts on: the field [_ws] (the
    index of the stored socket, [None] for [undefined]), the sockets and
    promises created so far, the open listeners suspended at
    [await this.InitializeConnection()] (by the promise they will settle),
    and the effects so far. *)
Record Client : Type := {
  _ws : option nat;
  sockets : list WebSocket;
  promises : list PromiseState;
  awaiting : list nat;
  trace : list Effect
}.

(** The state after [new ButtplugWebsocketClient(name)]. *)
Definition new_client : Client :=
  {| _ws := None; sockets := []; promises := []; awaiting := []; trace := [] |}.

Definition set__ws (v : option nat) (c : Client) : Client :=
  {| _ws := v; sockets := sockets c; promises := promises c;
     awaiting := awaiting c; trace := trace c |}.
Definition set_sockets (v : list WebSocket) (c : Client) : Client :=
  {| _ws := _ws c; sockets := v; promises := promises c;
     awaiting := awaiting c; trace := trace c |}.
Definition set_promises (v : list PromiseState) (c : Client) : Client :=
  {| _ws := _ws c; sockets := sockets c; promises := v;
     awaiting := awaiting c; trace := trace c |}.
Definition set_awaiting (v : list nat) (c : Client) : Client :=
  {| _ws := _ws c; sockets := sockets c; promises := promises c;
     awaiting := v; trace := trace c |}.
Definition record (e : Effect) (c : Client) : Client :=
  {| _ws := _ws c; sockets := sockets c; promises := promises c;
     awaiting := awaiting c; trace := trace c ++ [e] |}.

(** *** A state and exception monad for method bodies *)

Inductive Result (A : Type) : Type :=
| Returned (a : A) (c : Client)
| Thrown (e : Exception) (c : Client).
Arguments Returned {A} a c.
Arguments Thrown {A} e c.

Definition M (A : Type) : Type := Client -> Result A.

#[local] Instance M_ret : MRet M := fun A a c => Returned a c.
#[local] Instance M_bind : MBind M := fun A B f m c =>
  match m c with
  | Returned a c' => f a c'
  | Thrown e c' => Thrown e c'
  end.

Definition throw {A : Type} (e : Exception) : M A := fun c => Thrown e c.
Definition gets {A : Type} (f : Client -> A) : M A := fun c => Returned (f c) c.
Definition modify (f : Client -> Client) : M unit := fun c => Returned tt (f c).
Definition perform (e : Effect) : M unit := modify (record e).

(** The state a computation ends in, returned or thrown. *)
Definition final {A : Type} (r : Result A) : Client :=
  match r with Returned _ c => c | Thrown _ c => c end.

(** [ws.method(...)] on the socket stored at index [ws]. *)
Definition on_socket (ws : nat) (f : WebSocket -> WebSocket) : M unit :=
  modify (fun c => set_sockets (alter f ws (sockets c)) c).

(** [res()] and [rej(reason)] of promise [p]. *)
Definition res (p : nat) : M unit :=
  modify (fun c => set_promises (alter (settle Fulfilled) p (promises c)) c).
Definition rej (p : nat) (reason : option nat) : M unit :=
  modify (fun c =>
    set_promises (alter (settle (Rejected reason)) p (promises c)) c).

(** *** The class *)

(** [get Connected()], lines 14-16. *)
Definition Connected (c : Client) : bool :=
  match _ws c with Some _ => true | None => false end.

(** [this._ws] as the receiver of a method call. *)
Definition this_ws : M nat :=
  ws ← gets _ws;
  match ws with
  | Some k => mret k
  | None => throw TypeError
  end.

(** Modelled from the spec: the hook [InitializeConnection] of the base
    class [ButtplugClient] ([./Client]), an asynchronous hook of the protocol
    layer that succeeds or fails. The call is recorded, with the value of
    [Connected] it is made at; the answer comes later, as the input
    [handshake_answer] below. *)
Definition InitializeConnection : M unit :=
  connected ← gets Connected;
  perform (call_InitializeConnection connected).

(** Modelled from the spec: the hook [ShutdownConnection] of the base class,
    called for the protocol layer's wind-down; the call is recorded. *)
Definition ShutdownConnection : M unit := perform call_ShutdownConnection.

(** Modelled from the spec: the hook [ParseMessages] of the base class, the
    consumer of the decoded messages; the call is recorded with them. *)
Definition ParseMessages (msgs : list ButtplugMessage) : M unit :=
  perform (call_ParseMessages msgs).

(** A call of the decoder: its exception propagates. *)
Definition call_FromJSON (text : string) : M (list ButtplugMessage) :=
  match FromJSON text with
  | inl e => throw (DecodeFailure e)
  | inr msgs => mret msgs
  end.

(** [OnReaderLoad], lines 67-70; the argument is the reader's [result]. *)
Definition OnReaderLoad (result : string) : M unit :=
  msgs ← call_FromJSON result;
  ParseMessages msgs.

(** [ParseIncomingMessage], lines 18-27. For a [Blob] a [FileReader] is
    started; its "load" event comes back later as a call of
    [OnReaderLoad]. *)
Definition ParseIncomingMessage (data : EventData) : M unit :=
  match data with
  | StringData s =>
      msgs ← call_FromJSON s;
      ParseMessages msgs
  | BlobData text => perform (readAsText text)
  | OtherData => mret tt
  end.

(** [Connect], lines 29-48, up to [return p]: the socket and the promise are
    created and the two listeners registered. The result is the pair of the
    new socket and the promise returned. *)
Definition Connect (aUrl : string) : M (nat * nat) :=
  ws ← gets (fun c => length (sockets c));
  modify (fun c =>
    set_sockets (sockets c ++ [{| url := aUrl; listeners := [] |}]) c);;
  p ← gets (fun c => length (promises c));
  modify (fun c => set_promises (promises c ++ [Pending]) c);;
  on_socket ws (addEventListener "open" (open_listener ws p));;
  on_socket ws (addEventListener "close" (conErrorCallback p));;
  mret (ws, p).

(** The "open" listener of [Connect], lines 35-45: first the part up to the
    [await], where it suspends ... *)
Definition open_listener_body (ws p : nat) : M unit :=
  modify (set__ws (Some ws));;
  k ← this_ws;
  on_socket k (addEventListener "message" message_listener);;
  k ← this_ws;
  on_socket k (removeEventListener "close" (conErrorCallback p));;
  k ← this_ws;
  on_socket k (addEventListener "close" this_Disconnect);;
  InitializeConnection;;
  modify (fun c => set_awaiting (awaiting c ++ [p]) c).

(** ... then the part after it, entered with the hook's answer. *)
Definition open_listener_resume (p : nat) (answer : bool) : M unit :=
  if negb answer then rej p None else res p.

(** [Disconnect], lines 50-58. *)
Definition Disconnect : M unit :=
  connected ← gets Connected;
  if negb connected then mret tt
  else
    ShutdownConnection;;
    k ← this_ws;
    perform (ws_close k);;
    modify (set__ws None);;
    c ← gets Connected;
    perform (emit "close" c).

(** [Send], lines 60-65. *)
Definition Send (aMsg : ButtplugMessage) : M unit :=
  connected ← gets Connected;
  if negb connected then throw (JsError "ButtplugClient not connected")
  else
    k ← this_ws;
    perform (ws_send k ("[" +:+ toJSON aMsg +:+ "]")).

(** *** The event loop *)

(** A listener called by the host with the event's data; [ws] is the socket
    the event was fired on. *)
Definition run_listener (ws : nat) (data : EventData) (l : Listener) : M unit :=
  match l with
  | open_listener w p => open_listener_body w p
  | message_listener => ParseIncomingMessage data
  | conErrorCallback p => rej p (Some ws)
  | this_Disconnect => Disconnect
  end.

(** The host runs a listener and reports an exception that leaves it; the
    listeners after it still run. *)
Definition guarded (m : M unit) (c : Client) : Client :=
  match m c with
  | Returned _ c' => c'
  | Thrown e c' => record (reported e) c'
  end.

(** An event of type [type] fired on socket [ws]: the listeners registered
    for it when the dispatch starts run in registration order. *)
Definition dispatch (ws : nat) (type : string) (data : EventData) (c : Client)
  : Client :=
  match sockets c !! ws with
  | Some w =>
      foldl (fun c' l => guarded (run_listener ws data l) c') c
            (listeners_for type w)
  | None => c
  end.

(** What can happen to a client: a caller invokes a public method, the host
    fires an event on a socket, the promise of [InitializeConnection] awaited
    by an open listener is fulfilled with an answer, a [FileReader] finishes
    loading. *)
Inductive Input : Type :=
| do_Connect (aUrl : string)
| do_Disconnect
| do_Send (aMsg : ButtplugMessage)
| ws_event (ws : nat) (type : string) (data : EventData)
| handshake_answer (p : nat) (answer : bool)
| reader_load (result : string).

Definition step (i : Input) (c : Client) : Client :=
  match i with
  | do_Connect aUrl => final (Connect aUrl c)
  | do_Disconnect => final (Disconnect c)
  | do_Send aMsg => final (Send aMsg c)
  | ws_event ws type data => dispatch ws type data c
  | handshake_answer p answer =>
      if bool_decide (p ∈ awaiting c)
      then guarded (open_listener_resume p answer)
             (set_awaiting (filter (fun q => q ≠ p) (awaiting c)) c)
      else c
  | reader_load result => guarded (OnReaderLoad result) c
  end.

Definition run (inputs : list Input) (c : Client) : Client :=
  foldl (fun c' i => step i c') c inputs.

(** Counting in a trace. *)
Definition is_shutdown (e : Effect) : bool :=
  match e with call_ShutdownConnection => true | _ => false end.
Definition is_close_event (e : Effect) : bool :=
  match e with emit "close" _ => true | _ => false end.
Definition shutdown_calls (t : list Effect) : nat :=
  length (filter (fun e => is_shutdown e = true) t).
Definition close_events (t : list Effect) : nat :=
  length (filter (fun e => is_close_event e = true) t).
Definition writes (t : list Effect) : list (nat * string) :=
  omap (fun e => match e with ws_send k d => Some (k, d) | _ => None end) t.
Definition dispatched (t : list Effect) : list (list ButtplugMessage) :=
  omap (fun e => match e with call_ParseMessages ms => Some ms | _ => None end) t.

(** A session is open on socket [k]: [k] is the stored socket and carries
    the two listeners the open listener of [Connect] attaches. *)
Definition session_open (c : Client) (k : nat) : Prop :=
  _ws c = Some k /\
  exists w, sockets c !! k = Some w /\
    listeners_for "message" w = [message_listener] /\
    listeners_for "close" w = [this_Disconnect].

Definition is_open_listener (l : Listener) : bool :=
  match l with open_listener _ _ => true | _ => false end.

Definition is_this_Disconnect (l : Listener) : bool :=
  match l with this_Disconnect => true | _ => false end.

(** A frame with the given text arriving on socket [k], as a string or as a
    [Blob]; for a [Blob], the reader started for it then loads that text. *)
Definition arrival (k : nat) (as_blob : bool) (text : string) : list Input :=
  if as_blob
  then [ws_event k "message" (BlobData text); reader_load text]
  else [ws_event k "message" (StringData text)].

(** The frame [Send] writes for a message. *)
Definition frame_of (aMsg : ButtplugMessage) : string :=
  "[" +:+ toJSON aMsg +:+ "]".

(** What the decoder makes of a text: the messages, or the exception. *)
Definition decoded (text : string) : option (list ButtplugMessage) :=
  match FromJSON text with inr msgs => Some msgs | inl _ => None end.
Definition decode_failure (text : string) : option Exception :=
  match FromJSON text with inl e => Some (DecodeFailure e) | inr _ => None end.

(** The exceptions reported in a trace. *)
Definition reports (t : list Effect) : list Exception :=
  omap (fun e => match e with reported x => Some x | _ => None end) t.

(** Text frames arriving one after the other on socket [k]. *)
Definition text_frames (k : nat) (texts : list string) : list Input :=
  map (fun text => ws_event k "message" (StringData text)) texts.

(** ** Properties of the websocket client *)

Arguments ParseIncomingMessage : simpl never.
Arguments OnReaderLoad : simpl never.
Arguments Connect : simpl never.
Arguments Disconnect : simpl never.
Arguments Send : simpl never.
Arguments dispatch : simpl never.
Arguments guarded : simpl never.
Arguments step : simpl never.

Ltac run_M :=
  unfold this_ws, mbind, M_bind, mret, M_ret, gets, modify, throw, perform;
  simpl.

Lemma Connected_true (c : Client) : Connected c = true <-> is_Some (_ws c).
Proof.
  unfold Connected. destruct (_ws c); split; intros H; done || by destruct H.
Qed.

Lemma Connected_Some (c : Client) (k : nat) : _ws c = Some k -> Connected c = true.
Proof. unfold Connected. by intros ->. Qed.

Lemma Connected_false (c : Client) : Connected c = false <-> _ws c = None.
Proof. unfold Connected. destruct (_ws c); split; congruence. Qed.

Lemma Send_connected (aMsg : ButtplugMessage) (c : Client) (k : nat) :
  _ws c = Some k ->
  Send aMsg c = Returned tt (record (ws_send k ("[" +:+ toJSON aMsg +:+ "]")) c).
Proof.
  intros Hk. unfold Send. run_M. unfold Connected. rewrite Hk. simpl.
  rewrite ?Hk. reflexivity.
Qed.

Lemma Send_disconnected (aMsg : ButtplugMessage) (c : Client) :
  _ws c = None ->
  Send aMsg c = Thrown (JsError "ButtplugClient not connected") c.
Proof.
  intros Hk. unfold Send. run_M. unfold Connected. rewrite Hk. simpl.
  rewrite ?Hk. reflexivity.
Qed.

(** C4. [Send] on a client that is not connected throws the usage error
    "ButtplugClient not connected" at once and leaves the state as it was, so
    nothing is written to any socket; on a connected client [Send] returns
    and does not throw. *)
Theorem C4_Send_requires_connection (aMsg : ButtplugMessage) (c : Client) :
  (Connected c = false ->
     Send aMsg c = Thrown (JsError "ButtplugClient not connected") c /\
     writes (trace (final (Send aMsg c))) = writes (trace c)) /\
  (Connected c = true -> exists c', Send aMsg c = Returned tt c').
Proof.
  split.
  - intros H%Connected_false. rewrite (Send_disconnected _ _ H). done.
  - intros [k Hk]%Connected_true. rewrite (Send_connected _ _ _ Hk). by eexists.
Qed.

Lemma writes_app (t1 t2 : list Effect) : writes (t1 ++ t2) = writes t1 ++ writes t2.
Proof. unfold writes. apply omap_app. Qed.

(** C9. On a connected client, with [k] the stored socket, [Send aMsg]
    returns after exactly one write, to socket [k], of the string
    "[" + aMsg.toJSON() + "]". *)
Theorem C9_Send_frames_one_message (aMsg : ButtplugMessage) (c : Client) :
  Connected c = true ->
  exists k c',
    _ws c = Some k /\
    Send aMsg c = Returned tt c' /\
    trace c' = trace c ++ [ws_send k ("[" +:+ toJSON aMsg +:+ "]")] /\
    writes (trace c') = writes (trace c) ++ [(k, "[" +:+ toJSON aMsg +:+ "]")] /\
    _ws c' = _ws c.
Proof.
  intros [k Hk]%Connected_true. exists k. eexists.
  split; [done|]. split; [by apply Send_connected|].
  simpl. rewrite writes_app. done.
Qed.

(** *** The inbound frame path *)

Lemma ParseIncomingMessage_decoded (text : string) (msgs : list ButtplugMessage)
  (c : Client) :
  FromJSON text = inr msgs ->
  ParseIncomingMessage (StringData text) c
  = Returned tt (record (call_ParseMessages msgs) c).
Proof.
  intros Hd. unfold ParseIncomingMessage, call_FromJSON. run_M.
  rewrite Hd. reflexivity.
Qed.

Lemma ParseIncomingMessage_malformed (text : string) (e : CodecError) (c : Client) :
  FromJSON text = inl e ->
  ParseIncomingMessage (StringData text) c = Thrown (DecodeFailure e) c.
Proof.
  intros Hd. unfold ParseIncomingMessage, call_FromJSON. run_M.
  rewrite Hd. reflexivity.
Qed.

Lemma OnReaderLoad_decoded (text : string) (msgs : list ButtplugMessage)
  (c : Client) :
  FromJSON text = inr msgs ->
  OnReaderLoad text c = Returned tt (record (call_ParseMessages msgs) c).
Proof.
  intros Hd. unfold OnReaderLoad, call_FromJSON. run_M. rewrite Hd. reflexivity.
Qed.

Lemma OnReaderLoad_malformed (text : string) (e : CodecError) (c : Client) :
  FromJSON text = inl e ->
  OnReaderLoad text c = Thrown (DecodeFailure e) c.
Proof.
  intros Hd. unfold OnReaderLoad, call_FromJSON. run_M. rewrite Hd. reflexivity.
Qed.

Lemma dispatch_message (c : Client) (k : nat) (data : EventData) :
  session_open c k ->
  dispatch k "message" data c = guarded (ParseIncomingMessage data) c.
Proof.
  intros (_ & w & Hw & Hm & _). unfold dispatch. rewrite Hw, Hm. reflexivity.
Qed.

Lemma session_open_record (c : Client) (k : nat) (e : Effect) :
  session_open c k -> session_open (record e c) k.
Proof. intros H. exact H. Qed.

Lemma dispatched_app (t1 t2 : list Effect) :
  dispatched (t1 ++ t2) = dispatched t1 ++ dispatched t2.
Proof. unfold dispatched. apply omap_app. Qed.

Lemma close_events_app (t1 t2 : list Effect) :
  close_events (t1 ++ t2) = close_events t1 + close_events t2.
Proof. unfold close_events. by rewrite filter_app, length_app. Qed.

Lemma shutdown_calls_app (t1 t2 : list Effect) :
  shutdown_calls (t1 ++ t2) = shutdown_calls t1 + shutdown_calls t2.
Proof. unfold shutdown_calls. by rewrite filter_app, length_app. Qed.

Lemma step_frame_decoded (text : string) (msgs : list ButtplugMessage)
  (c : Client) (k : nat) :
  FromJSON text = inr msgs ->
  session_open c k ->
  step (ws_event k "message" (StringData text)) c
  = record (call_ParseMessages msgs) c.
Proof.
  intros Hd Hs. unfold step. rewrite (dispatch_message _ _ _ Hs).
  unfold guarded. by rewrite (ParseIncomingMessage_decoded _ _ _ Hd).
Qed.

Lemma step_frame_malformed (text : string) (e : CodecError) (c : Client) (k : nat) :
  FromJSON text = inl e ->
  session_open c k ->
  step (ws_event k "message" (StringData text)) c
  = record (reported (DecodeFailure e)) c.
Proof.
  intros Hd Hs. unfold step. rewrite (dispatch_message _ _ _ Hs).
  unfold guarded. by rewrite (ParseIncomingMessage_malformed _ _ _ Hd).
Qed.

Lemma step_load_malformed (text : string) (e : CodecError) (c : Client) :
  FromJSON text = inl e ->
  step (reader_load text) c = record (reported (DecodeFailure e)) c.
Proof.
  intros Hd. unfold step, guarded. by rewrite (OnReaderLoad_malformed _ _ _ Hd).
Qed.

(** C8. A text frame that decodes to [msgs], arriving on an open session,
    makes exactly one call of [ParseMessages], with [msgs] as the decoder
    returned them. *)
Theorem C8_text_frame_dispatched_once (text : string)
  (msgs : list ButtplugMessage) (c : Client) (k : nat) :
  FromJSON text = inr msgs ->
  session_open c k ->
  let c' := step (ws_event k "message" (StringData text)) c in
  ParseIncomingMessage (StringData text) c
  = Returned tt (record (call_ParseMessages msgs) c) /\
  trace c' = trace c ++ [call_ParseMessages msgs] /\
  dispatched (trace c') = dispatched (trace c) ++ [msgs].
Proof.
  intros Hd Hs c'. subst c'. rewrite (step_frame_decoded _ _ _ _ Hd Hs).
  split; [by apply ParseIncomingMessage_decoded|].
  simpl. by rewrite dispatched_app.
Qed.

(** *** Teardown *)

Lemma Disconnect_connected (c : Client) (k : nat) :
  _ws c = Some k ->
  Disconnect c
  = Returned tt
      (record (emit "close" false)
         (set__ws None (record (ws_close k) (record call_ShutdownConnection c)))).
Proof.
  intros Hk. unfold Disconnect, ShutdownConnection. run_M.
  unfold Connected. rewrite Hk. simpl. rewrite Hk. reflexivity.
Qed.

Lemma Disconnect_disconnected (c : Client) :
  _ws c = None -> Disconnect c = Returned tt c.
Proof.
  intros Hk. unfold Disconnect. run_M. unfold Connected. rewrite Hk. reflexivity.
Qed.

Lemma dispatch_close (c : Client) (k : nat) (w : WebSocket) (data : EventData) :
  sockets c !! k = Some w ->
  listeners_for "close" w = [this_Disconnect] ->
  dispatch k "close" data c = guarded Disconnect c.
Proof. intros Hw Hl. unfold dispatch. rewrite Hw, Hl. reflexivity. Qed.

Lemma step_Disconnect_connected (c : Client) (k : nat) :
  _ws c = Some k ->
  step do_Disconnect c
  = record (emit "close" false)
      (set__ws None (record (ws_close k) (record call_ShutdownConnection c))).
Proof. intros Hk. unfold step. by rewrite (Disconnect_connected _ _ Hk). Qed.

Lemma step_Disconnect_disconnected (c : Client) :
  _ws c = None -> step do_Disconnect c = c.
Proof. intros Hk. unfold step. by rewrite (Disconnect_disconnected _ Hk). Qed.

Lemma step_close_connected (c : Client) (k j : nat) (w : WebSocket) (data : EventData) :
  sockets c !! j = Some w ->
  listeners_for "close" w = [this_Disconnect] ->
  _ws c = Some k ->
  step (ws_event j "close" data) c
  = record (emit "close" false)
      (set__ws None (record (ws_close k) (record call_ShutdownConnection c))).
Proof.
  intros Hw Hl Hk. unfold step. rewrite (dispatch_close _ _ _ _ Hw Hl).
  unfold guarded. by rewrite (Disconnect_connected _ _ Hk).
Qed.

Lemma step_close_disconnected (c : Client) (j : nat) (w : WebSocket) (data : EventData) :
  sockets c !! j = Some w ->
  listeners_for "close" w = [this_Disconnect] ->
  _ws c = None ->
  step (ws_event j "close" data) c = c.
Proof.
  intros Hw Hl Hk. unfold step. rewrite (dispatch_close _ _ _ _ Hw Hl).
  unfold guarded. by rewrite (Disconnect_disconnected _ Hk).
Qed.

Lemma teardown_counts (t : list Effect) (k : nat) :
  shutdown_calls (t ++ [call_ShutdownConnection; ws_close k; emit "close" false])
  = S (shutdown_calls t) /\
  close_events (t ++ [call_ShutdownConnection; ws_close k; emit "close" false])
  = S (close_events t).
Proof.
  rewrite shutdown_calls_app, close_events_app.
  unfold shutdown_calls, close_events. simpl. lia.
Qed.

(** C3. [Disconnect] on a client that is not connected returns with the
    state unchanged. From a connected client with stored socket [k], two
    calls of [Disconnect] in a row add to the trace exactly one teardown:
    one call of [ShutdownConnection], one [close()] of the socket and one
    "close" event. When the socket carries [this.Disconnect] as its close
    listener, as after "open", the same holds for a call followed by the
    socket's "close" event and for the "close" event followed by a call. *)
Theorem C3_Disconnect_idempotent (c : Client) :
  (Connected c = false -> Disconnect c = Returned tt c) /\
  (forall k c',
     _ws c = Some k ->
     c' = run [do_Disconnect; do_Disconnect] c \/
     (session_open c k /\
      (c' = run [do_Disconnect; ws_event k "close" OtherData] c \/
       c' = run [ws_event k "close" OtherData; do_Disconnect] c)) ->
     trace c'
     = trace c ++ [call_ShutdownConnection; ws_close k; emit "close" false] /\
     shutdown_calls (trace c') = S (shutdown_calls (trace c)) /\
     close_events (trace c') = S (close_events (trace c)) /\
     Connected c' = false).
Proof.
  split.
  - intros H%Connected_false. by apply Disconnect_disconnected.
  - intros k c' Hk Hc'.
    assert (c' = record (emit "close" false)
              (set__ws None (record (ws_close k)
                 (record call_ShutdownConnection c)))) as ->.
    { destruct Hc' as [-> | [(_ & w & Hw & _ & Hl) [-> | ->]]];
        unfold run; simpl foldl.
      - rewrite (step_Disconnect_connected _ _ Hk).
        by rewrite step_Disconnect_disconnected.
      - rewrite (step_Disconnect_connected _ _ Hk).
        by rewrite (step_close_disconnected _ _ w).
      - rewrite (step_close_connected _ k k w _ Hw Hl Hk).
        by rewrite step_Disconnect_disconnected. }
    simpl. rewrite <- !app_assoc. simpl.
    pose proof (teardown_counts (trace c) k) as [Hs He].
    by rewrite Hs, He.
Qed.

(** C10. In every state the getter [Connected] is true exactly when a
    socket is stored in [_ws], so every operation keeps this. [Disconnect]
    returns from every state; the state it returns has no stored socket and
    [Connected] false, and every event it emitted was emitted after the
    stored socket had been cleared: the subscribers of "close" read
    [Connected] as false. The same holds when the teardown runs as the
    socket's close listener. *)
Theorem C10_Connected_iff_socket_stored (c : Client) :
  (Connected c = true <-> is_Some (_ws c)) /\
  (forall i, Connected (step i c) = true <-> is_Some (_ws (step i c))) /\
  (exists c' added,
     Disconnect c = Returned tt c' /\
     trace c' = trace c ++ added /\
     (forall ev b, emit ev b ∈ added -> b = false) /\
     _ws c' = None /\ Connected c' = false /\
     Disconnect c' = Returned tt c').
Proof.
  split; [apply Connected_true|]. split; [intros i; apply Connected_true|].
  destruct (_ws c) as [k|] eqn:Hk.
  - eexists _, [call_ShutdownConnection; ws_close k; emit "close" false].
    split; [by apply Disconnect_connected|]. simpl.
    split_and!; try done.
    + by rewrite <- !app_assoc.
    + intros ev b Hin.
      repeat (apply elem_of_cons in Hin as [Hin|Hin]; try congruence).
      by apply elem_of_nil in Hin.
  - exists c, []. split; [by apply Disconnect_disconnected|].
    split_and!; try done.
    + by rewrite app_nil_r.
    + intros ev b Hin. by apply elem_of_nil in Hin.
    + by apply Connected_false.
    + by apply Disconnect_disconnected.
Qed.

(** *** Connecting *)

Lemma alter_snoc {A : Type} (f : A -> A) (l : list A) (x : A) :
  alter f (length l) (l ++ [x]) = l ++ [f x].
Proof.
  replace (length l) with (length l + 0) by lia. by rewrite alter_app_r.
Qed.

Lemma lookup_snoc {A : Type} (l : list A) (x : A) :
  (l ++ [x]) !! length l = Some x.
Proof. by apply list_lookup_middle. Qed.

(** [Connect] returns at once, with a new socket that carries the open
    listener and [conErrorCallback], and a new pending promise; [_ws] is not
    touched. *)
Lemma Connect_returns (aUrl : string) (c : Client) :
  let ws := length (sockets c) in
  let p := length (promises c) in
  Connect aUrl c
  = Returned (ws, p)
      {| _ws := _ws c;
         sockets := sockets c
           ++ [{| url := aUrl;
                  listeners := [("open", open_listener ws p);
                                ("close", conErrorCallback p)] |}];
         promises := promises c ++ [Pending];
         awaiting := awaiting c;
         trace := trace c |}.
Proof.
  intros ws p. unfold Connect, on_socket. run_M.
  unfold set_sockets, set_promises. simpl.
  rewrite !alter_snoc. reflexivity.
Qed.

Lemma same_registration_conErrorCallback (type : string) (p : nat) :
  same_registration type (conErrorCallback p) (type, conErrorCallback p) = true.
Proof.
  unfold same_registration, same_callback. simpl.
  by rewrite !bool_decide_true by done.
Qed.

Lemma step_Connect (aUrl : string) (c : Client) :
  let ws := length (sockets c) in
  let p := length (promises c) in
  step (do_Connect aUrl) c
  = {| _ws := _ws c;
       sockets := sockets c
         ++ [{| url := aUrl;
                listeners := [("open", open_listener ws p);
                              ("close", conErrorCallback p)] |}];
       promises := promises c ++ [Pending];
       awaiting := awaiting c;
       trace := trace c |}.
Proof. intros ws p. unfold step. by rewrite Connect_returns. Qed.

(** The "open" event on the socket of a [Connect] call runs the open
    listener up to its [await]: the socket is stored, the message listener
    and [this.Disconnect] replace [conErrorCallback], and the hook
    [InitializeConnection] has been called. *)
Lemma step_open_after_Connect (aUrl : string) (c : Client) (data : EventData) :
  let ws := length (sockets c) in
  let p := length (promises c) in
  step (ws_event ws "open" data) (step (do_Connect aUrl) c)
  = {| _ws := Some ws;
       sockets := sockets c
         ++ [{| url := aUrl;
                listeners := [("open", open_listener ws p);
                              ("message", message_listener);
                              ("close", this_Disconnect)] |}];
       promises := promises c ++ [Pending];
       awaiting := awaiting c ++ [p];
       trace := trace c ++ [call_InitializeConnection true] |}.
Proof.
  intros ws p. subst ws p. rewrite step_Connect. unfold step, dispatch.
  simpl sockets.
  rewrite lookup_snoc. simpl.
  unfold guarded, open_listener_body, on_socket, InitializeConnection. run_M.
  unfold set_sockets. simpl. rewrite !alter_snoc.
  unfold removeEventListener, addEventListener. simpl.
  rewrite same_registration_conErrorCallback. reflexivity.
Qed.

(** The answer of the handshake resumes the open listener, which settles
    the promise and does nothing else. *)
Lemma step_handshake_answer (p : nat) (answer : bool) (c : Client) :
  p ∈ awaiting c ->
  step (handshake_answer p answer) c
  = {| _ws := _ws c;
       sockets := sockets c;
       promises :=
         alter (settle (if answer then Fulfilled else Rejected None)) p
               (promises c);
       awaiting := filter (fun q => q ≠ p) (awaiting c);
       trace := trace c |}.
Proof.
  intros Hp. unfold step. rewrite bool_decide_true by done.
  unfold guarded, open_listener_resume, res, rej.
  destruct answer; reflexivity.
Qed.

(** Listeners other than the open listener of [Connect] never store a
    socket. *)
Lemma listener_keeps_disconnected (ws : nat) (data : EventData) (l : Listener)
  (c : Client) :
  is_open_listener l = false ->
  _ws c = None ->
  _ws (guarded (run_listener ws data l) c) = None.
Proof.
  intros Hl Hc. unfold guarded. destruct l; try discriminate; simpl.
  - unfold ParseIncomingMessage, call_FromJSON.
    destruct data as [s | text |]; run_M; try done.
    by destruct (FromJSON s).
  - done.
  - by rewrite (Disconnect_disconnected _ Hc).
Qed.

Lemma listeners_keep_disconnected (ws : nat) (data : EventData)
  (ls : list Listener) (c : Client) :
  forallb (fun l => negb (is_open_listener l)) ls = true ->
  _ws c = None ->
  _ws (foldl (fun c' l => guarded (run_listener ws data l) c') c ls) = None.
Proof.
  revert c. induction ls as [|l ls IH]; intros c Hls Hc; [done|].
  simpl in Hls. apply andb_true_iff in Hls as [Hl Hls].
  simpl. apply IH; [done|].
  apply listener_keeps_disconnected; [|done].
  by destruct (is_open_listener l).
Qed.

(** [Connected] turns from false to true in one place only: an event whose
    listeners include the open listener of a [Connect] call. *)
Lemma Connected_rises_in_open_listener (i : Input) (c : Client) :
  Connected c = false ->
  Connected (step i c) = true ->
  exists ws type data w,
    i = ws_event ws type data /\ sockets c !! ws = Some w /\
    existsb is_open_listener (listeners_for type w) = true.
Proof.
  intros Hc%Connected_false Hs. destruct i as [aUrl| |aMsg|ws type data|p b|text].
  - rewrite step_Connect in Hs. apply Connected_true in Hs as [k Hk].
    simpl in Hk. congruence.
  - rewrite (step_Disconnect_disconnected _ Hc) in Hs.
    apply Connected_true in Hs as [k Hk]. congruence.
  - unfold step in Hs. rewrite (Send_disconnected _ _ Hc) in Hs.
    apply Connected_true in Hs as [k Hk]. simpl in Hk. congruence.
  - unfold step, dispatch in Hs.
    destruct (sockets c !! ws) as [w|] eqn:Hw.
    + exists ws, type, data, w. split_and!; try done.
      destruct (existsb is_open_listener (listeners_for type w)) eqn:He; [done|].
      assert (forallb (fun l => negb (is_open_listener l)) (listeners_for type w)
              = true) as Hall.
      { clear -He. induction (listeners_for type w) as [|l ls IH]; [done|].
        simpl in *. apply orb_false_iff in He as [-> He]. by rewrite IH. }
      apply Connected_true in Hs as [k Hk].
      rewrite (listeners_keep_disconnected _ _ _ _ Hall Hc) in Hk. congruence.
    + apply Connected_true in Hs as [k Hk]. congruence.
  - unfold step in Hs. case_bool_decide as Hp.
    + unfold guarded, open_listener_resume, res, rej in Hs.
      apply Connected_true in Hs as [k Hk]. destruct b; simpl in Hk; congruence.
    + apply Connected_true in Hs as [k Hk]. congruence.
  - unfold step, guarded, OnReaderLoad, call_FromJSON in Hs. revert Hs. run_M.
    intros [k Hk]%Connected_true.
    destruct (FromJSON text); simpl in Hk; congruence.
Qed.

Lemma elem_of_snoc (p : nat) (l : list nat) : p ∈ l ++ [p].
Proof. apply elem_of_app. right. apply list_elem_of_here. Qed.

Lemma filter_ne_snoc (p : nat) (l : list nat) :
  p ∉ filter (fun q => q ≠ p) l.
Proof. intros [H _]%list_elem_of_filter. done. Qed.

(** C2 (amended). When the channel opens and the hook answers [false], the
    promise of the [Connect] call is rejected (with [undefined]) and that is
    all the failure path does: the socket stored at "open" stays stored, so
    [Connected] stays true, the message listener and [this.Disconnect] stay
    registered on it, and nothing is closed or emitted. In general the
    answer [false] changes nothing but the promise and the suspended
    listener. *)
Theorem C2_failed_handshake_only_rejects (aUrl : string) (c : Client)
  (data : EventData) :
  let ws := length (sockets c) in
  let p := length (promises c) in
  let c2 := step (ws_event ws "open" data) (step (do_Connect aUrl) c) in
  let c3 := step (handshake_answer p false) c2 in
  promises c3 !! p = Some (Rejected None) /\
  _ws c3 = Some ws /\ Connected c3 = true /\
  sockets c3 = sockets c2 /\ trace c3 = trace c2 /\
  session_open c3 ws /\
  (forall q c0, q ∈ awaiting c0 ->
     let c0' := step (handshake_answer q false) c0 in
     promises c0' = alter (settle (Rejected None)) q (promises c0) /\
     _ws c0' = _ws c0 /\ sockets c0' = sockets c0 /\ trace c0' = trace c0).
Proof.
  intros ws p c2 c3. subst c3 c2 ws p.
  rewrite step_open_after_Connect.
  rewrite step_handshake_answer by apply elem_of_snoc. simpl.
  split_and!; try done.
  - rewrite alter_snoc. apply lookup_snoc.
  - split; [done|]. eexists. split; [apply lookup_snoc|]. done.
  - intros q c0 Hq. by rewrite (step_handshake_answer _ _ _ Hq).
Qed.

(** *** Further properties: failed and interrupted connects *)

Lemma step_close_after_Connect (aUrl : string) (c : Client) (data : EventData) :
  let ws := length (sockets c) in
  let p := length (promises c) in
  step (ws_event ws "close" data) (step (do_Connect aUrl) c)
  = {| _ws := _ws c;
       sockets := sockets c
         ++ [{| url := aUrl;
                listeners := [("open", open_listener ws p);
                              ("close", conErrorCallback p)] |}];
       promises := promises c ++ [Rejected (Some ws)];
       awaiting := awaiting c;
       trace := trace c |}.
Proof.
  intros ws p. subst ws p. rewrite step_Connect. unfold step, dispatch.
  simpl sockets. rewrite lookup_snoc. simpl.
  unfold guarded, rej. run_M. unfold set_promises. simpl.
  by rewrite alter_snoc.
Qed.

(** X1. When the socket of a [Connect] call closes before it opened, the
    promise is rejected with that close event and nothing else happens: the
    stored socket, if any, stays, no teardown runs and no "close" event is
    emitted. *)
Theorem Connect_rejected_by_early_close (aUrl : string) (c : Client)
  (data : EventData) :
  let ws := length (sockets c) in
  let p := length (promises c) in
  let c' := run [do_Connect aUrl; ws_event ws "close" data] c in
  promises c' !! p = Some (Rejected (Some ws)) /\
  _ws c' = _ws c /\ trace c' = trace c /\ awaiting c' = awaiting c /\
  (forall q, q < p -> promises c' !! q = promises c !! q).
Proof.
  intros ws p c'. subst c' ws p. unfold run. simpl foldl.
  rewrite step_close_after_Connect. simpl. split_and!; try done.
  - apply lookup_snoc.
  - intros q Hq. by apply lookup_app_l.
Qed.

Lemma step_close_during_handshake (aUrl : string) (c : Client)
  (data data' : EventData) :
  let ws := length (sockets c) in
  let p := length (promises c) in
  run [do_Connect aUrl; ws_event ws "open" data; ws_event ws "close" data'] c
  = {| _ws := None;
       sockets := sockets c
         ++ [{| url := aUrl;
                listeners := [("open", open_listener ws p);
                              ("message", message_listener);
                              ("close", this_Disconnect)] |}];
       promises := promises c ++ [Pending];
       awaiting := awaiting c ++ [p];
       trace := trace c ++ [call_InitializeConnection true;
                            call_ShutdownConnection;
                            ws_close ws; emit "close" false] |}.
Proof.
  intros ws p. subst ws p. unfold run. simpl foldl.
  rewrite step_open_after_Connect.
  erewrite step_close_connected; [| apply lookup_snoc | reflexivity | reflexivity].
  unfold record, set__ws. simpl. by rewrite <- !app_assoc.
Qed.

(** X2. When the socket closes after "open" while the answer of
    [InitializeConnection] is awaited, the teardown runs once and the client
    is disconnected, but the promise of [Connect] stays pending: only the
    hook's answer settles it, and the answer [true] fulfils it although the
    client is no longer connected. *)
Theorem close_during_handshake_leaves_promise (aUrl : string) (c : Client)
  (data data' : EventData) (answer : bool) :
  let ws := length (sockets c) in
  let p := length (promises c) in
  let c3 := run [do_Connect aUrl; ws_event ws "open" data;
                 ws_event ws "close" data'] c in
  let c4 := step (handshake_answer p answer) c3 in
  trace c3 = trace c ++ [call_InitializeConnection true;
                         call_ShutdownConnection;
                         ws_close ws; emit "close" false] /\
  Connected c3 = false /\ promises c3 !! p = Some Pending /\
  promises c4 !! p = Some (if answer then Fulfilled else Rejected None) /\
  Connected c4 = false /\ trace c4 = trace c3.
Proof.
  intros ws p c3 c4. subst c4 c3 ws p.
  rewrite step_close_during_handshake.
  rewrite step_handshake_answer by apply elem_of_snoc. simpl.
  split_and!; try done.
  - apply lookup_snoc.
  - rewrite alter_snoc. rewrite lookup_snoc. by destruct answer.
Qed.

(** X3. [Connect] has no guard: on any client, connected or not, the call
    and the "open" event of its socket store the new socket and call the
    hook, without closing the socket stored before, without a teardown and
    without a "close" event; the sockets and promises that existed keep
    their listeners and states. *)
Theorem Connect_replaces_stored_socket (aUrl : string) (c : Client)
  (data : EventData) :
  let ws := length (sockets c) in
  let c2 := run [do_Connect aUrl; ws_event ws "open" data] c in
  _ws c2 = Some ws /\
  trace c2 = trace c ++ [call_InitializeConnection true] /\
  (forall j w, sockets c !! j = Some w -> sockets c2 !! j = Some w) /\
  (forall q s, promises c !! q = Some s -> promises c2 !! q = Some s).
Proof.
  intros ws c2. subst c2 ws. unfold run. simpl foldl.
  rewrite step_open_after_Connect. simpl. split_and!; try done.
  - intros j w Hj. by apply lookup_app_l_Some.
  - intros q s0 Hq. by apply lookup_app_l_Some.
Qed.

(** X4. After a handshake that failed, the client still works as a
    connected one: [Send] writes its frame to the socket that was opened,
    and [Disconnect] runs the one teardown of that socket. *)
Theorem client_usable_after_failed_handshake (aUrl : string) (c : Client)
  (data : EventData) (aMsg : ButtplugMessage) :
  let ws := length (sockets c) in
  let p := length (promises c) in
  let c3 := run [do_Connect aUrl; ws_event ws "open" data;
                 handshake_answer p false] c in
  Send aMsg c3 = Returned tt (record (ws_send ws (frame_of aMsg)) c3) /\
  trace (step do_Disconnect c3)
  = trace c3 ++ [call_ShutdownConnection; ws_close ws; emit "close" false] /\
  Connected (step do_Disconnect c3) = false.
Proof.
  intros ws p c3.
  assert (_ws c3 = Some ws) as Hk.
  { subst c3 ws p. unfold run. simpl foldl. rewrite step_open_after_Connect.
    by rewrite step_handshake_answer by apply elem_of_snoc. }
  split; [by apply Send_connected|].
  rewrite (step_Disconnect_connected _ _ Hk). simpl.
  by rewrite <- !app_assoc.
Qed.

(** *** Further properties: what the steps keep *)

Lemma Disconnect_keeps (c : Client) :
  sockets (final (Disconnect c)) = sockets c /\
  promises (final (Disconnect c)) = promises c /\
  awaiting (final (Disconnect c)) = awaiting c.
Proof.
  destruct (_ws c) as [k|] eqn:Hk.
  - by rewrite (Disconnect_connected _ _ Hk).
  - by rewrite (Disconnect_disconnected _ Hk).
Qed.

Lemma guarded_Disconnect (c : Client) :
  guarded Disconnect c = final (Disconnect c).
Proof.
  unfold guarded. destruct (_ws c) as [k|] eqn:Hk.
  - by rewrite (Disconnect_connected _ _ Hk).
  - by rewrite (Disconnect_disconnected _ Hk).
Qed.

(** An inbound frame changes nothing but the trace, where it adds no
    teardown. *)
Lemma ParseIncomingMessage_keeps (data : EventData) (c : Client) :
  let c' := guarded (ParseIncomingMessage data) c in
  _ws c' = _ws c /\ sockets c' = sockets c /\ promises c' = promises c /\
  awaiting c' = awaiting c /\
  close_events (trace c') = close_events (trace c) /\
  shutdown_calls (trace c') = shutdown_calls (trace c).
Proof.
  unfold guarded, ParseIncomingMessage, call_FromJSON.
  destruct data as [text | text |]; run_M; try done.
  - destruct (FromJSON text); simpl;
      rewrite close_events_app, shutdown_calls_app;
      unfold close_events, shutdown_calls; simpl; split_and!; try done; lia.
  - rewrite close_events_app, shutdown_calls_app.
    unfold close_events, shutdown_calls. simpl. split_and!; try done; lia.
Qed.

Lemma OnReaderLoad_keeps (text : string) (c : Client) :
  let c' := guarded (OnReaderLoad text) c in
  _ws c' = _ws c /\ sockets c' = sockets c /\ promises c' = promises c /\
  awaiting c' = awaiting c /\
  close_events (trace c') = close_events (trace c) /\
  shutdown_calls (trace c') = shutdown_calls (trace c).
Proof.
  unfold guarded, OnReaderLoad, call_FromJSON. run_M.
  destruct (FromJSON text); simpl;
    rewrite close_events_app, shutdown_calls_app;
    unfold close_events, shutdown_calls; simpl; split_and!; try done; lia.
Qed.

(** The open listener up to its [await], on any client. *)
Lemma open_listener_body_runs (ws p : nat) (c : Client) :
  guarded (open_listener_body ws p) c
  = {| _ws := Some ws;
       sockets :=
         alter (addEventListener "close" this_Disconnect) ws
           (alter (removeEventListener "close" (conErrorCallback p)) ws
              (alter (addEventListener "message" message_listener) ws
                 (sockets c)));
       promises := promises c;
       awaiting := awaiting c ++ [p];
       trace := trace c ++ [call_InitializeConnection true] |}.
Proof.
  unfold guarded, open_listener_body, on_socket, InitializeConnection. run_M.
  reflexivity.
Qed.

Lemma settle_settled (new s : PromiseState) : s <> Pending -> settle new s = s.
Proof. by destruct s. Qed.

Lemma alter_settle_keeps (new : PromiseState) (q p : nat)
  (ps : list PromiseState) (s : PromiseState) :
  ps !! p = Some s -> s <> Pending ->
  alter (settle new) q ps !! p = Some s.
Proof.
  intros Hp Hs. destruct (decide (q = p)) as [-> | Hne].
  - rewrite list_lookup_alter_eq, Hp. simpl. by rewrite settle_settled.
  - by rewrite list_lookup_alter_ne.
Qed.

Lemma listener_keeps_settled (ws : nat) (data : EventData) (l : Listener)
  (c : Client) (p : nat) (s : PromiseState) :
  promises c !! p = Some s -> s <> Pending ->
  promises (guarded (run_listener ws data l) c) !! p = Some s.
Proof.
  intros Hp Hs. destruct l as [w q | | q |]; unfold run_listener.
  - by rewrite open_listener_body_runs.
  - by destruct (ParseIncomingMessage_keeps data c) as (_ & _ & -> & _).
  - unfold guarded, rej. run_M. by apply alter_settle_keeps.
  - rewrite guarded_Disconnect. by destruct (Disconnect_keeps c) as (_ & -> & _).
Qed.

Lemma step_keeps_settled (i : Input) (c : Client) (p : nat) (s : PromiseState) :
  promises c !! p = Some s -> s <> Pending ->
  promises (step i c) !! p = Some s.
Proof.
  intros Hp Hs. destruct i as [aUrl| |aMsg|ws type data|q b|text].
  - rewrite step_Connect. simpl. by apply lookup_app_l_Some.
  - unfold step. by destruct (Disconnect_keeps c) as (_ & -> & _).
  - unfold step, Send. run_M. destruct (Connected c); simpl; [|done].
    by destruct (_ws c).
  - unfold step, dispatch. destruct (sockets c !! ws) as [w|]; [|done].
    revert c Hp. induction (listeners_for type w) as [|l ls IH]; intros c Hp.
    + done.
    + simpl. apply IH. by apply listener_keeps_settled.
  - unfold step. case_bool_decide; [|done].
    unfold guarded, open_listener_resume, res, rej.
    destruct b; run_M; by apply alter_settle_keeps.
  - unfold step. by destruct (OnReaderLoad_keeps text c) as (_ & _ & -> & _).
Qed.

(** X5. A promise of [Connect] settles once: when it is fulfilled or
    rejected, no sequence of calls, events and answers changes its state. *)
Theorem settled_promise_is_final (inputs : list Input) (c : Client) (p : nat)
  (s : PromiseState) :
  promises c !! p = Some s -> s <> Pending ->
  promises (run inputs c) !! p = Some s.
Proof.
  intros Hp Hs. unfold run. revert c Hp.
  induction inputs as [|i inputs IH]; intros c Hp; [done|].
  simpl. apply IH. by apply step_keeps_settled.
Qed.

(** *** Further properties: teardown is never silent *)

(** A listener either keeps the teardown counts and does not disconnect, or
    it is the one teardown of a connected client. *)
Lemma listener_teardown (ws : nat) (data : EventData) (l : Listener)
  (c : Client) :
  let c' := guarded (run_listener ws data l) c in
  (close_events (trace c') = close_events (trace c) /\
   shutdown_calls (trace c') = shutdown_calls (trace c) /\
   (Connected c = true -> Connected c' = true)) \/
  (close_events (trace c') = S (close_events (trace c)) /\
   shutdown_calls (trace c') = S (shutdown_calls (trace c))).
Proof.
  destruct l as [w q | | q |]; unfold run_listener.
  - left. rewrite open_listener_body_runs. simpl.
    rewrite close_events_app, shutdown_calls_app.
    unfold close_events, shutdown_calls. simpl. split_and!; try done; lia.
  - left. destruct (ParseIncomingMessage_keeps data c)
      as (Hws & _ & _ & _ & -> & ->).
    split_and!; try done. unfold Connected. by rewrite Hws.
  - left. unfold guarded, rej. by run_M.
  - rewrite guarded_Disconnect. destruct (_ws c) as [k|] eqn:Hk.
    + right. rewrite (Disconnect_connected _ _ Hk). simpl.
      rewrite <- !app_assoc. simpl.
      by destruct (teardown_counts (trace c) k).
    + left. rewrite (Disconnect_disconnected _ Hk). by simpl.
Qed.

Lemma listeners_teardown (ws : nat) (data : EventData) (ls : list Listener)
  (c : Client) :
  let c' := foldl (fun c0 l => guarded (run_listener ws data l) c0) c ls in
  close_events (trace c) <= close_events (trace c') /\
  shutdown_calls (trace c) <= shutdown_calls (trace c') /\
  (Connected c = true -> Connected c' = false ->
   close_events (trace c) < close_events (trace c') /\
   shutdown_calls (trace c) < shutdown_calls (trace c')).
Proof.
  revert c. induction ls as [|l ls IH]; intros c; simpl.
  - split_and!; try lia; intros H1 H2; congruence.
  - destruct (IH (guarded (run_listener ws data l) c)) as (IH1 & IH2 & IH3).
    destruct (listener_teardown ws data l c) as [(H1 & H2 & H3) | (H1 & H2)].
    + split_and!; try lia; intros Hc Hc';
        destruct (IH3 (H3 Hc) Hc'); lia.
    + split_and!; lia.
Qed.

Lemma step_teardown (i : Input) (c : Client) :
  close_events (trace c) <= close_events (trace (step i c)) /\
  shutdown_calls (trace c) <= shutdown_calls (trace (step i c)) /\
  (Connected c = true -> Connected (step i c) = false ->
   close_events (trace c) < close_events (trace (step i c)) /\
   shutdown_calls (trace c) < shutdown_calls (trace (step i c))).
Proof.
  destruct i as [aUrl| |aMsg|ws type data|q b|text].
  - rewrite step_Connect. unfold Connected. simpl.
    split_and!; try lia; intros H1 H2; congruence.
  - pose proof (listener_teardown 0 OtherData this_Disconnect c) as H.
    unfold run_listener in H. rewrite guarded_Disconnect in H. unfold step.
    destruct H as [(H1 & H2 & H3) | (H1 & H2)].
    + split_and!; try lia; intros Hc Hc'; rewrite (H3 Hc) in Hc'; discriminate.
    + split_and!; lia.
  - unfold step. destruct (_ws c) as [k|] eqn:Hk.
    + rewrite (Send_connected _ _ _ Hk). unfold Connected. simpl. rewrite Hk.
      rewrite close_events_app, shutdown_calls_app.
      unfold close_events, shutdown_calls. simpl.
      split_and!; try lia; intros _ Hc; discriminate.
    + rewrite (Send_disconnected _ _ Hk). simpl.
      split_and!; try lia; intros Hc; unfold Connected in Hc;
        rewrite Hk in Hc; discriminate.
  - unfold step, dispatch. destruct (sockets c !! ws) as [w|].
    + apply listeners_teardown.
    + split_and!; try lia; intros H1 H2; congruence.
  - unfold step. case_bool_decide.
    + unfold guarded, open_listener_resume, res, rej.
      destruct b; run_M; unfold Connected; simpl;
        (split_and!; try lia; intros H1 H2; congruence).
    + split_and!; try lia; intros H1 H2; congruence.
  - unfold step. destruct (OnReaderLoad_keeps text c)
      as (Hws & _ & _ & _ & -> & ->).
    unfold Connected. rewrite Hws.
    split_and!; try lia; intros H1 H2; congruence.
Qed.

(** X6. A client never gets disconnected silently: over any sequence of
    calls, events and answers that starts connected and ends not connected,
    at least one "close" event was emitted and [ShutdownConnection] was
    called at least once; and no sequence ever lowers these counts. *)
Theorem disconnect_is_never_silent (inputs : list Input) (c : Client) :
  Connected c = true ->
  Connected (run inputs c) = false ->
  close_events (trace c) < close_events (trace (run inputs c)) /\
  shutdown_calls (trace c) < shutdown_calls (trace (run inputs c)).
Proof.
  unfold run.
  assert (forall c0,
    close_events (trace c0)
    <= close_events (trace (foldl (fun c' i => step i c') c0 inputs)) /\
    shutdown_calls (trace c0)
    <= shutdown_calls (trace (foldl (fun c' i => step i c') c0 inputs)) /\
    (Connected c0 = true ->
     Connected (foldl (fun c' i => step i c') c0 inputs) = false ->
     close_events (trace c0)
     < close_events (trace (foldl (fun c' i => step i c') c0 inputs)) /\
     shutdown_calls (trace c0)
     < shutdown_calls (trace (foldl (fun c' i => step i c') c0 inputs))))
    as Hgen.
  { induction inputs as [|i inputs IH]; intros c0; simpl.
    - split_and!; try lia; intros H1 H2; congruence.
    - destruct (IH (step i c0)) as (IH1 & IH2 & IH3).
      destruct (step_teardown i c0) as (H1 & H2 & H3).
      split_and!; try lia; intros Hc Hc';
        destruct (Connected (step i c0)) eqn:Hs;
        [destruct (IH3 eq_refl Hc') | destruct (H3 Hc eq_refl)]; lia. }
  intros Hc Hc'. by apply Hgen.
Qed.

(** *** Further properties: sequences of sends and of frames *)

Lemma step_Send_connected (aMsg : ButtplugMessage) (c : Client) (k : nat) :
  _ws c = Some k ->
  step (do_Send aMsg) c = record (ws_send k (frame_of aMsg)) c.
Proof. intros Hk. unfold step. by rewrite (Send_connected _ _ _ Hk). Qed.

(** X7. On a connected client a sequence of [Send] calls writes one frame
    per message to the stored socket, in the order of the calls, and changes
    nothing else. *)
Theorem Sends_write_frames_in_order (msgs : list ButtplugMessage) (c : Client)
  (k : nat) :
  _ws c = Some k ->
  let c' := run (map do_Send msgs) c in
  trace c' = trace c ++ map (fun m => ws_send k (frame_of m)) msgs /\
  writes (trace c') = writes (trace c) ++ map (fun m => (k, frame_of m)) msgs /\
  _ws c' = _ws c /\ sockets c' = sockets c /\ promises c' = promises c.
Proof.
  unfold run. revert c. induction msgs as [|m msgs IH]; intros c Hk; simpl.
  - by rewrite !app_nil_r.
  - rewrite (step_Send_connected _ _ _ Hk).
    destruct (IH (record (ws_send k (frame_of m)) c) Hk)
      as (H1 & H2 & H3 & H4 & H5).
    rewrite H2, H1, H3, H4, H5. simpl. rewrite writes_app. simpl.
    by rewrite <- !app_assoc.
Qed.

Lemma reports_app (t1 t2 : list Effect) :
  reports (t1 ++ t2) = reports t1 ++ reports t2.
Proof. unfold reports. apply omap_app. Qed.

(** X8. Text frames arriving on an open session are handled one by one in
    arrival order: [ParseMessages] receives the decoded lists of the frames
    that decode, in order, the exceptions of the others are reported, in
    order, and the session stays open, with no "close" event, however many
    frames fail. *)
Theorem frames_dispatched_in_order (texts : list string) (c : Client) (k : nat) :
  session_open c k ->
  let c' := run (text_frames k texts) c in
  dispatched (trace c') = dispatched (trace c) ++ omap decoded texts /\
  reports (trace c') = reports (trace c) ++ omap decode_failure texts /\
  close_events (trace c') = close_events (trace c) /\
  session_open c' k.
Proof.
  unfold run, text_frames. revert c.
  induction texts as [|text texts IH]; intros c Hs.
  - simpl. by rewrite !app_nil_r.
  - cbn [map foldl omap list_omap].
    destruct (FromJSON text) as [e|msgs] eqn:Hd.
    + assert (decoded text = None) as -> by (unfold decoded; by rewrite Hd).
      assert (decode_failure text = Some (DecodeFailure e)) as ->
        by (unfold decode_failure; by rewrite Hd).
      rewrite (step_frame_malformed _ _ _ _ Hd Hs).
      destruct (IH _ (session_open_record _ _ (reported (DecodeFailure e)) Hs))
        as (H1 & H2 & H3 & H4).
      rewrite H1, H2, H3. cbn [trace record].
      rewrite dispatched_app, reports_app, close_events_app.
      split_and!; [by rewrite app_nil_r | by rewrite <- app_assoc | | done].
      unfold close_events. simpl. lia.
    + assert (decoded text = Some msgs) as -> by (unfold decoded; by rewrite Hd).
      assert (decode_failure text = None) as ->
        by (unfold decode_failure; by rewrite Hd).
      rewrite (step_frame_decoded _ _ _ _ Hd Hs).
      destruct (IH _ (session_open_record _ _ (call_ParseMessages msgs) Hs))
        as (H1 & H2 & H3 & H4).
      rewrite H1, H2, H3. cbn [trace record].
      rewrite dispatched_app, reports_app, close_events_app.
      split_and!; [by rewrite <- app_assoc | by rewrite app_nil_r | | done].
      unfold close_events. simpl. lia.
Qed.

Lemma step_frame_blob (text : string) (c : Client) (k : nat) :
  session_open c k ->
  step (ws_event k "message" (BlobData text)) c = record (readAsText text) c.
Proof. intros Hs. unfold step. by rewrite (dispatch_message _ _ _ Hs). Qed.

Lemma step_frame_other (c : Client) (k : nat) :
  session_open c k -> step (ws_event k "message" OtherData) c = c.
Proof. intros Hs. unfold step. by rewrite (dispatch_message _ _ _ Hs). Qed.

Lemma step_load_decoded (text : string) (msgs : list ButtplugMessage)
  (c : Client) :
  FromJSON text = inr msgs ->
  step (reader_load text) c = record (call_ParseMessages msgs) c.
Proof.
  intros Hd. unfold step, guarded. by rewrite (OnReaderLoad_decoded _ _ _ Hd).
Qed.

(** X9. A blob frame reaches the consumer like the text frame with the same
    text: the frame itself only starts the reader, and when the reader has
    loaded, [ParseMessages] is called once with the decoded messages. A
    frame that is neither a string nor a blob is dropped without any
    effect. *)
Theorem blob_frame_joins_text_path (text : string)
  (msgs : list ButtplugMessage) (c : Client) (k : nat) :
  FromJSON text = inr msgs ->
  session_open c k ->
  let c1 := step (ws_event k "message" (BlobData text)) c in
  let c2 := step (reader_load text) c1 in
  trace c1 = trace c ++ [readAsText text] /\
  trace c2 = trace c ++ [readAsText text; call_ParseMessages msgs] /\
  dispatched (trace c2)
  = dispatched (trace (step (ws_event k "message" (StringData text)) c)) /\
  step (ws_event k "message" OtherData) c = c.
Proof.
  intros Hd Hs c1 c2. subst c2 c1.
  rewrite (step_frame_decoded _ _ _ _ Hd Hs).
  rewrite (step_frame_blob _ _ _ Hs), (step_frame_other _ _ Hs).
  rewrite (step_load_decoded _ _ _ Hd). simpl.
  rewrite <- app_assoc, !dispatched_app. simpl. by rewrite ?app_nil_r.
Qed.

(** *** Further properties: what [Disconnect] leaves behind *)

(** X10. [Disconnect] detaches nothing: the sockets keep all their
    listeners, and promises and suspended listeners are untouched. So a text
    frame that arrives on the closed socket after the teardown is still
    decoded and passed to [ParseMessages], although [Connected] is false. *)
Theorem Disconnect_keeps_listeners (text : string)
  (msgs : list ButtplugMessage) (c : Client) (k : nat) :
  FromJSON text = inr msgs ->
  session_open c k ->
  let c1 := step do_Disconnect c in
  let c2 := step (ws_event k "message" (StringData text)) c1 in
  sockets c1 = sockets c /\ promises c1 = promises c /\
  awaiting c1 = awaiting c /\ Connected c1 = false /\
  Connected c2 = false /\
  trace c2 = trace c1 ++ [call_ParseMessages msgs].
Proof.
  intros Hd (Hk & w & Hw & Hm & Hl) c1 c2. subst c2 c1.
  rewrite (step_Disconnect_connected _ _ Hk).
  unfold step, dispatch. simpl sockets. rewrite Hw, Hm. simpl foldl.
  unfold run_listener, guarded.
  by rewrite (ParseIncomingMessage_decoded _ _ _ Hd).
Qed.

(** X11. The close listener tears down whatever socket is stored at the
    time, not the socket the event comes from: a "close" event on a socket
    [j] that carries [this.Disconnect], for instance the socket of an
    earlier session, closes the stored socket [k] and disconnects the
    client. *)
Theorem stale_close_tears_down_current (c : Client) (j k : nat)
  (w : WebSocket) (data : EventData) :
  _ws c = Some k ->
  sockets c !! j = Some w ->
  listeners_for "close" w = [this_Disconnect] ->
  let c' := step (ws_event j "close" data) c in
  trace c'
  = trace c ++ [call_ShutdownConnection; ws_close k; emit "close" false] /\
  Connected c' = false.
Proof.
  intros Hk Hw Hl c'. subst c'.
  rewrite (step_close_connected _ k j w _ Hw Hl Hk). simpl.
  by rewrite <- !app_assoc.
Qed.

(** *** The connect sequence, in any schedule *)

(** Listeners other than [this.Disconnect] never clear the stored socket. *)
Lemma listener_keeps_connected (ws : nat) (data : EventData) (l : Listener)
  (c : Client) :
  is_this_Disconnect l = false ->
  Connected c = true ->
  Connected (guarded (run_listener ws data l) c) = true.
Proof.
  intros Hl Hc. destruct l as [w q | | q |]; try discriminate;
    unfold run_listener.
  - by rewrite open_listener_body_runs.
  - destruct (ParseIncomingMessage_keeps data c) as (Hws & _).
    unfold Connected. by rewrite Hws.
  - unfold guarded, rej. by run_M.
Qed.

Lemma listeners_keep_connected (ws : nat) (data : EventData)
  (ls : list Listener) (c : Client) :
  existsb is_this_Disconnect ls = false ->
  Connected c = true ->
  Connected (foldl (fun c' l => guarded (run_listener ws data l) c') c ls)
  = true.
Proof.
  revert c. induction ls as [|l ls IH]; intros c Hls Hc; [done|].
  simpl in Hls. apply orb_false_iff in Hls as [Hl Hls].
  simpl. apply IH; [done|]. by apply listener_keeps_connected.
Qed.

(** [Connected] turns from true to false in one place only: [Disconnect],
    called or run as a close listener. *)
Lemma Connected_falls_in_Disconnect (i : Input) (c : Client) :
  Connected c = true ->
  Connected (step i c) = false ->
  i = do_Disconnect \/
  exists ws type data w,
    i = ws_event ws type data /\ sockets c !! ws = Some w /\
    existsb is_this_Disconnect (listeners_for type w) = true.
Proof.
  intros Hc Hs. destruct i as [aUrl| |aMsg|ws type data|p b|text].
  - rewrite step_Connect in Hs. unfold Connected in *. simpl in Hs. congruence.
  - by left.
  - apply Connected_true in Hc as [k Hk]. unfold step in Hs.
    rewrite (Send_connected _ _ _ Hk) in Hs. unfold Connected in Hs.
    simpl in Hs. rewrite Hk in Hs. discriminate.
  - right. unfold step, dispatch in Hs.
    destruct (sockets c !! ws) as [w|] eqn:Hw; [|congruence].
    exists ws, type, data, w. split_and!; try done.
    destruct (existsb is_this_Disconnect (listeners_for type w)) eqn:He;
      [done|].
    rewrite (listeners_keep_connected _ _ _ _ He Hc) in Hs. discriminate.
  - unfold step in Hs. case_bool_decide; [|congruence].
    unfold guarded, open_listener_resume, res, rej, Connected in *.
    destruct b; simpl in Hs; congruence.
  - unfold step in Hs. destruct (OnReaderLoad_keeps text c) as (Hws & _).
    unfold Connected in *. rewrite Hws in Hs. congruence.
Qed.

(** The answer of a handshake changes neither [Connected] nor the trace. *)
Lemma handshake_answer_keeps (q : nat) (b : bool) (c : Client) :
  Connected (step (handshake_answer q b) c) = Connected c /\
  trace (step (handshake_answer q b) c) = trace c.
Proof.
  unfold step. case_bool_decide; [|done].
  unfold guarded, open_listener_resume, res, rej. by destruct b.
Qed.

Lemma alter_reject_not_fulfilled (r : option nat) (q' q : nat)
  (ps : list PromiseState) :
  ps !! q <> Some Fulfilled ->
  alter (settle (Rejected r)) q' ps !! q <> Some Fulfilled.
Proof.
  intros Hq. destruct (decide (q' = q)) as [-> | Hne].
  - rewrite list_lookup_alter_eq. destruct (ps !! q) as [[| |r']|]; simpl;
      congruence.
  - by rewrite list_lookup_alter_ne.
Qed.

Lemma listener_never_fulfils (ws : nat) (data : EventData) (l : Listener)
  (c : Client) (q : nat) :
  promises c !! q <> Some Fulfilled ->
  promises (guarded (run_listener ws data l) c) !! q <> Some Fulfilled.
Proof.
  intros Hq. destruct l as [w q' | | q' |]; unfold run_listener.
  - by rewrite open_listener_body_runs.
  - by destruct (ParseIncomingMessage_keeps data c) as (_ & _ & -> & _).
  - unfold guarded, rej. run_M. by apply alter_reject_not_fulfilled.
  - rewrite guarded_Disconnect. by destruct (Disconnect_keeps c) as (_ & -> & _).
Qed.

(** A promise of [Connect] is fulfilled in one place only: the open
    listener suspended for it, resumed with the answer [true]. *)
Lemma fulfilled_by_answer_true (i : Input) (q : nat) (c : Client) :
  promises c !! q <> Some Fulfilled ->
  promises (step i c) !! q = Some Fulfilled ->
  i = handshake_answer q true /\ q ∈ awaiting c.
Proof.
  intros Hq Hs.
  destruct i as [aUrl| |aMsg|ws type data|p b|text].
  - exfalso. rewrite step_Connect in Hs. simpl in Hs.
    apply lookup_app_Some in Hs as [Hs | [_ Hs]]; [done|].
    destruct (q - length (promises c)); simpl in Hs; discriminate.
  - exfalso. unfold step in Hs.
    destruct (Disconnect_keeps c) as (_ & Hp & _). rewrite Hp in Hs. done.
  - exfalso. unfold step, Send in Hs. revert Hs. run_M.
    destruct (Connected c); simpl; [|done]. by destruct (_ws c).
  - exfalso. unfold step, dispatch in Hs.
    destruct (sockets c !! ws) as [w|]; [|done].
    revert c Hq Hs. induction (listeners_for type w) as [|l ls IH];
      intros c Hq Hs; [done|].
    simpl in Hs. eapply IH; [|exact Hs]. by apply listener_never_fulfils.
  - unfold step in Hs. case_bool_decide as Hp; [|done].
    unfold guarded, open_listener_resume, res, rej in Hs. revert Hs.
    destruct b; run_M; intros Hs.
    + destruct (decide (p = q)) as [-> | Hne]; [done|].
      rewrite list_lookup_alter_ne in Hs by done. done.
    + exfalso. by apply (alter_reject_not_fulfilled None p q (promises c)).
  - exfalso. unfold step in Hs.
    destruct (OnReaderLoad_keeps text c) as (_ & _ & Hp & _).
    rewrite Hp in Hs. done.
Qed.


(** *** Malformed frames, as text and as blobs *)

Lemma run_arrival_malformed (text : string) (e : CodecError) (c : Client)
  (k : nat) (as_blob : bool) :
  FromJSON text = inl e ->
  session_open c k ->
  run (arrival k as_blob text) c
  = record (reported (DecodeFailure e))
      (if as_blob then record (readAsText text) c else c).
Proof.
  intros Hd Hs. unfold run. destruct as_blob; simpl foldl.
  - rewrite (step_frame_blob _ _ _ Hs). by rewrite (step_load_malformed _ _ _ Hd).
  - by rewrite (step_frame_malformed _ _ _ _ Hd Hs).
Qed.

Lemma run_arrival_decoded (text : string) (msgs : list ButtplugMessage)
  (c : Client) (k : nat) (as_blob : bool) :
  FromJSON text = inr msgs ->
  session_open c k ->
  run (arrival k as_blob text) c
  = record (call_ParseMessages msgs)
      (if as_blob then record (readAsText text) c else c).
Proof.
  intros Hd Hs. unfold run. destruct as_blob; simpl foldl.
  - rewrite (step_frame_blob _ _ _ Hs). by rewrite (step_load_decoded _ _ _ Hd).
  - by rewrite (step_frame_decoded _ _ _ _ Hd Hs).
Qed.


End Client.

Arguments new_client {ButtplugMessage CodecError}.
Arguments _ws {ButtplugMessage CodecError} c.
Arguments sockets {ButtplugMessage CodecError} c.
Arguments promises {ButtplugMessage CodecError} c.
Arguments awaiting {ButtplugMessage CodecError} c.
Arguments trace {ButtplugMessage CodecError} c.
Arguments Returned {ButtplugMessage CodecError A} a c.
Arguments Thrown {ButtplugMessage CodecError A} e c.
Arguments JsError {CodecError} message.
Arguments TypeError {CodecError}.
Arguments DecodeFailure {CodecError} e.
Arguments call_InitializeConnection {ButtplugMessage CodecError} connected.
Arguments call_ShutdownConnection {ButtplugMessage CodecError}.
Arguments call_ParseMessages {ButtplugMessage CodecError} msgs.
Arguments ws_close {ButtplugMessage CodecError} ws.
Arguments ws_send {ButtplugMessage CodecError} ws data.
Arguments emit {ButtplugMessage CodecError} event connected.
Arguments reported {ButtplugMessage CodecError} e.
Arguments do_Connect {ButtplugMessage} aUrl.
Arguments do_Disconnect {ButtplugMessage}.
Arguments do_Send {ButtplugMessage} aMsg.
Arguments ws_event {ButtplugMessage} ws type data.
Arguments handshake_answer {ButtplugMessage} p answer.
Arguments reader_load {ButtplugMessage} result.
Arguments Connected {ButtplugMessage CodecError} c.
Arguments session_open {ButtplugMessage CodecError} c k.
Arguments Connect {ButtplugMessage CodecError} aUrl _.
Arguments Disconnect {ButtplugMessage CodecError} _.
Arguments Send {ButtplugMessage CodecError} toJSON aMsg _.
Arguments ParseIncomingMessage {ButtplugMessage CodecError} FromJSON data _.
Arguments OnReaderLoad {ButtplugMessage CodecError} FromJSON result _.
Arguments step {ButtplugMessage CodecError} FromJSON toJSON i c.
Arguments run {ButtplugMessage CodecError} FromJSON toJSON inputs c.
Arguments final {ButtplugMessage CodecError A} r.
Arguments writes {ButtplugMessage CodecError} t.
Arguments dispatched {ButtplugMessage CodecError} t.
Arguments shutdown_calls {ButtplugMessage CodecError} t.
Arguments close_events {ButtplugMessage CodecError} t.
Arguments readAsText {ButtplugMessage CodecError} blob.
Arguments frame_of {ButtplugMessage} toJSON aMsg.
Arguments decoded {ButtplugMessage CodecError} FromJSON text.
Arguments decode_failure {ButtplugMessage CodecError} FromJSON text.
Arguments reports {ButtplugMessage CodecError} t.
Arguments text_frames {ButtplugMessage} k texts.
Arguments arrival {ButtplugMessage} k as_blob text.

(** *** The client run with the sample codec *)

Local Abbreviation sample_step :=
  (step SampleCodec.FromJSON SampleCodec.toJSON).
Local Abbreviation sample_run :=
  (run SampleCodec.FromJSON SampleCodec.toJSON).
Local Abbreviation address := "ws://localhost:12345/buttplug".
Local Abbreviation fresh := (@new_client SampleCodec.Message string).

(** A client after a [Connect] whose channel opened and whose handshake
    succeeded. *)
Local Abbreviation in_session :=
  (sample_run [do_Connect address; ws_event 0 "open" OtherData;
               handshake_answer 0 true] fresh).

Lemma in_session_open : session_open in_session 0.
Proof.
  split; [reflexivity|]. eexists. split; [reflexivity|]. split; reflexivity.
Qed.



(** C2 as stated fails: after the hook answers [false] the promise is
    rejected, but the socket is still stored and still carries the message
    listener and [this.Disconnect]. *)
Lemma C2_counterexample :
  let c3 := sample_run [do_Connect address; ws_event 0 "open" OtherData;
                        handshake_answer 0 false] fresh in
  promises c3 !! 0 = Some (Rejected None) /\
  Connected c3 <> false /\
  exists w, sockets c3 !! 0 = Some w /\
    listeners_for "message" w <> [] /\ listeners_for "close" w <> [].
Proof.
  split; [reflexivity|]. split; [by vm_compute|].
  eexists. split; [reflexivity|]. by vm_compute.
Qed.

Lemma C2_witness :
  let c2 := sample_run [do_Connect address; ws_event 0 "open" OtherData] fresh in
  let c3 := sample_step (handshake_answer 0 false) c2 in
  (0 ∈ awaiting c2) /\
  promises c3 !! 0 = Some (Rejected None) /\ Connected c3 = true /\
  sockets c3 = sockets c2 /\ trace c3 = trace c2.
Proof.
  split; [apply list_elem_of_here|].
  pose proof (C2_failed_handshake_only_rejects _ _ SampleCodec.FromJSON
                SampleCodec.toJSON address fresh OtherData)
    as (H1 & _ & H2 & H3 & H4 & _).
  exact (conj H1 (conj H2 (conj H3 H4))).
Defined.

Lemma C3_witness :
  session_open in_session 0 /\
  let c' := sample_run [do_Disconnect; ws_event 0 "close" OtherData] in_session in
  shutdown_calls (trace c') = S (shutdown_calls (trace in_session)) /\
  close_events (trace c') = S (close_events (trace in_session)) /\
  Connected c' = false.
Proof.
  split; [apply in_session_open|].
  pose proof (proj2 (C3_Disconnect_idempotent _ _ SampleCodec.FromJSON
                       SampleCodec.toJSON in_session) 0 _ eq_refl
                (or_intror (conj in_session_open (or_introl eq_refl))))
    as (_ & H1 & H2 & H3).
  exact (conj H1 (conj H2 H3)).
Defined.

Lemma C4_witness :
  Connected fresh = false /\
  Send SampleCodec.toJSON 7 fresh
  = Thrown (JsError "ButtplugClient not connected") fresh /\
  Connected in_session = true /\
  exists c', Send SampleCodec.toJSON 7 in_session = Returned tt c'.
Proof.
  split; [reflexivity|]. split.
  - exact (proj1 (proj1 (C4_Send_requires_connection _ _ SampleCodec.toJSON
                           7 fresh) eq_refl)).
  - split; [reflexivity|].
    exact (proj2 (C4_Send_requires_connection _ _ SampleCodec.toJSON
                    7 in_session) eq_refl).
Defined.


Lemma C8_witness :
  SampleCodec.FromJSON "[1,2]" = inr [1; 2] /\
  session_open in_session 0 /\
  let c' := sample_step (ws_event 0 "message" (StringData "[1,2]")) in_session in
  trace c' = trace in_session ++ [call_ParseMessages [1; 2]].
Proof.
  split; [reflexivity|]. split; [apply in_session_open|].
  exact (proj1 (proj2 (C8_text_frame_dispatched_once _ _ SampleCodec.FromJSON
                         SampleCodec.toJSON "[1,2]" [1; 2] in_session 0
                         eq_refl in_session_open))).
Defined.

Lemma C9_witness :
  Connected in_session = true /\
  exists k c', Send SampleCodec.toJSON 7 in_session = Returned tt c' /\
    trace c' = trace in_session ++ [ws_send k "[7]"].
Proof.
  split; [reflexivity|].
  destruct (C9_Send_frames_one_message _ _ SampleCodec.toJSON 7 in_session
              eq_refl) as (k & c' & _ & H1 & H2 & _).
  exists k, c'. exact (conj H1 H2).
Defined.

Lemma C10_witness :
  Connected in_session = true /\
  exists c', Disconnect in_session = Returned tt c' /\
    trace c'
    = trace in_session
      ++ [call_ShutdownConnection; ws_close 0; emit "close" false] /\
    Connected c' = false.
Proof.
  split; [reflexivity|].
  destruct (C10_Connected_iff_socket_stored _ _ SampleCodec.FromJSON
              SampleCodec.toJSON in_session)
    as (_ & _ & c' & added & H1 & _ & _ & _ & H2 & _).
  exists c'. split; [exact H1|]. split; [|exact H2].
  assert (Some c' = Some (final (Disconnect in_session))) as Hc'
    by (rewrite H1; reflexivity).
  injection Hc' as ->. reflexivity.
Defined.

(** When [Disconnect] is called while the handshake is awaited, an answer
    [false] finds the client already torn down. *)
Example failed_handshake_after_Disconnect :
  let c := sample_run [do_Connect address; ws_event 0 "open" OtherData;
                       do_Disconnect; handshake_answer 0 false] fresh in
  Connected c = false /\ promises c !! 0 = Some (Rejected None) /\
  trace c = [call_InitializeConnection true; call_ShutdownConnection;
             ws_close 0; emit "close" false].
Proof. by vm_compute. Qed.

(** A second "open" listener run on a connected client replaces the stored
    socket: [Connect] has no guard against a call on a connected client. *)
Example Connect_while_connected :
  let c := sample_run [do_Connect address; ws_event 1 "open" OtherData]
             in_session in
  _ws in_session = Some 0 /\ _ws c = Some 1.
Proof. by vm_compute. Qed.

(** *** The further properties on the sample client *)

(** A client that disconnected from socket 0 and has a session on
    socket 1. *)
Local Abbreviation reconnected :=
  (sample_run [do_Disconnect; do_Connect address; ws_event 1 "open" OtherData;
               handshake_answer 1 true] in_session).

Lemma settled_promise_is_final_witness :
  let c := sample_run [do_Connect address; ws_event 0 "close" OtherData] fresh in
  promises c !! 0 = Some (Rejected (Some 0)) /\
  Rejected (Some 0) <> Pending /\
  promises (sample_run [ws_event 0 "open" OtherData; handshake_answer 0 true] c)
  !! 0 = Some (Rejected (Some 0)).
Proof.
  intros c.
  assert (Rejected (Some 0) <> Pending) as Hne by discriminate.
  split; [reflexivity|]. split; [exact Hne|].
  exact (settled_promise_is_final _ _ SampleCodec.FromJSON SampleCodec.toJSON
           [ws_event 0 "open" OtherData; handshake_answer 0 true] c 0
           (Rejected (Some 0)) eq_refl Hne).
Defined.

Lemma disconnect_is_never_silent_witness :
  let c' := sample_run [ws_event 0 "close" OtherData] in_session in
  Connected in_session = true /\ Connected c' = false /\
  close_events (trace in_session) < close_events (trace c') /\
  shutdown_calls (trace in_session) < shutdown_calls (trace c').
Proof.
  intros c'. split; [reflexivity|]. split; [reflexivity|].
  exact (disconnect_is_never_silent _ _ SampleCodec.FromJSON
           SampleCodec.toJSON [ws_event 0 "close" OtherData] in_session
           eq_refl eq_refl).
Defined.

Lemma Sends_write_frames_in_order_witness :
  _ws in_session = Some 0 /\
  let c' := sample_run (map do_Send [1; 2]) in_session in
  trace c' = trace in_session ++ [ws_send 0 "[1]"; ws_send 0 "[2]"].
Proof.
  split; [reflexivity|].
  exact (proj1 (Sends_write_frames_in_order _ _ SampleCodec.FromJSON
                  SampleCodec.toJSON [1; 2] in_session 0 eq_refl)).
Defined.

Lemma frames_dispatched_in_order_witness :
  session_open in_session 0 /\
  let c' := sample_run (text_frames 0 ["[1,2]"; "[1,2"; "[7]"]) in_session in
  dispatched (trace c') = dispatched (trace in_session) ++ [[1; 2]; [7]] /\
  reports (trace c')
  = reports (trace in_session) ++ [DecodeFailure "SyntaxError"] /\
  session_open c' 0.
Proof.
  split; [apply in_session_open|].
  pose proof (frames_dispatched_in_order _ _ SampleCodec.FromJSON
                SampleCodec.toJSON ["[1,2]"; "[1,2"; "[7]"] in_session 0
                in_session_open) as (H1 & H2 & _ & H4).
  exact (conj H1 (conj H2 H4)).
Defined.

Lemma blob_frame_joins_text_path_witness :
  SampleCodec.FromJSON "[1,2]" = inr [1; 2] /\
  session_open in_session 0 /\
  let c2 := sample_run [ws_event 0 "message" (BlobData "[1,2]");
                        reader_load "[1,2]"] in_session in
  trace c2
  = trace in_session ++ [readAsText "[1,2]"; call_ParseMessages [1; 2]].
Proof.
  split; [reflexivity|]. split; [apply in_session_open|].
  exact (proj1 (proj2 (blob_frame_joins_text_path _ _ SampleCodec.FromJSON
                         SampleCodec.toJSON "[1,2]" [1; 2] in_session 0
                         eq_refl in_session_open))).
Defined.

Lemma Disconnect_keeps_listeners_witness :
  SampleCodec.FromJSON "[7]" = inr [7] /\
  session_open in_session 0 /\
  let c1 := sample_step do_Disconnect in_session in
  let c2 := sample_step (ws_event 0 "message" (StringData "[7]")) c1 in
  sockets c1 = sockets in_session /\ Connected c2 = false /\
  trace c2 = trace c1 ++ [call_ParseMessages [7]].
Proof.
  split; [reflexivity|]. split; [apply in_session_open|].
  pose proof (Disconnect_keeps_listeners _ _ SampleCodec.FromJSON
                SampleCodec.toJSON "[7]" [7] in_session 0 eq_refl
                in_session_open) as (H1 & _ & _ & _ & H2 & H3).
  exact (conj H1 (conj H2 H3)).
Defined.

Lemma stale_close_tears_down_current_witness :
  _ws reconnected = Some 1 /\
  exists w, sockets reconnected !! 0 = Some w /\
    listeners_for "close" w = [this_Disconnect] /\
    let c' := sample_step (ws_event 0 "close" OtherData) reconnected in
    trace c'
    = trace reconnected
      ++ [call_ShutdownConnection; ws_close 1; emit "close" false] /\
    Connected c' = false.
Proof.
  split; [reflexivity|]. eexists. split; [reflexivity|]. split; [reflexivity|].
  exact (stale_close_tears_down_current _ _ SampleCodec.FromJSON
           SampleCodec.toJSON reconnected 0 1 _ OtherData
           eq_refl eq_refl eq_refl).
Defined.

End WebsocketClient.

(** ** Properties of the logger *)

Module LoggingProperties.

Import Logging.

Lemma leb_le (a b : LogLevel.t) :
  LogLevel.leb a b = true <-> (LogLevel.value a <= LogLevel.value b)%Z.
Proof. unfold LogLevel.leb. apply Z.leb_le. Qed.

Lemma gtb_leb (a b : LogLevel.t) : LogLevel.gtb a b = negb (LogLevel.leb a b).
Proof.
  unfold LogLevel.gtb, LogLevel.leb. rewrite Z.gtb_ltb, Z.leb_antisym.
  by rewrite negb_involutive.
Qed.

Lemma leb_gt (a b : LogLevel.t) :
  LogLevel.leb a b = false <-> (LogLevel.value a > LogLevel.value b)%Z.
Proof. unfold LogLevel.leb. rewrite Z.leb_gt. lia. Qed.

(** [AddLogMessage] by the three tests it makes. *)
Lemma AddLogMessage_cases (now : Date) (text : string) (L : LogLevel.t)
  (lg : ButtplugLogger) :
  let msg := new_LogMessage now text L in
  AddLogMessage now text L lg
  = match LogLevel.leb L (maximumLogLevel lg),
          LogLevel.leb L (maximumConsoleLogLevel lg), logToConsole lg with
    | false, false, _ => []
    | false, true, false => [Constructed msg]
    | false, true, true => [Constructed msg; ConsoleLog (FormattedMessage msg)]
    | true, false, _ => [Constructed msg; Emit "log" msg]
    | true, true, false => [Constructed msg; Emit "log" msg]
    | true, true, true =>
        [Constructed msg; ConsoleLog (FormattedMessage msg); Emit "log" msg]
    end.
Proof.
  unfold AddLogMessage. rewrite !gtb_leb.
  destruct (LogLevel.leb L (maximumLogLevel lg)),
    (LogLevel.leb L (maximumConsoleLogLevel lg)), (logToConsole lg);
    reflexivity.
Qed.

(** The part of C5 that fails: a call for which neither the console
    condition nor the event condition holds, and which builds a record all
    the same. *)
Lemma C5_counterexample :
  let lg := {| logToConsole := false;
               maximumConsoleLogLevel := LogLevel.Trace;
               maximumLogLevel := LogLevel.Off |} in
  let now := {| getHours := 9; getMinutes := 5; getSeconds := 30 |} in
  let out := AddLogMessage now "cache hit" LogLevel.Info lg in
  ~ (logToConsole lg = true /\
     (LogLevel.value LogLevel.Info
      <= LogLevel.value (maximumConsoleLogLevel lg))%Z) /\
  ~ (LogLevel.value LogLevel.Info <= LogLevel.value (maximumLogLevel lg))%Z /\
  out = [Constructed {| timestamp := "9:5:30"; logMessage := "cache hit";
                        logLevel := LogLevel.Info |}] /\
  records_built out <> 0.
Proof.
  split_and!.
  - intros [H _]. discriminate H.
  - simpl. lia.
  - reflexivity.
  - by vm_compute.
Qed.

(** C5 (amended). A log call prints a console line exactly when console
    output is enabled and the level is at most [maximumConsoleLogLevel], and
    then prints the one formatted line; it emits a "log" event exactly when
    the level is at most [maximumLogLevel], and then emits the one record.
    The two are independent: with console threshold Info and event threshold
    Trace a Trace call emits an event and prints nothing. A record is built
    exactly when the level is at most one of the two thresholds; a level
    above both thresholds does nothing at all. *)
Theorem C5_AddLogMessage_filters (now : Date) (text : string) (L : LogLevel.t)
  (lg : ButtplugLogger) :
  let out := AddLogMessage now text L lg in
  let msg := new_LogMessage now text L in
  let console_admits :=
    logToConsole lg = true /\
    (LogLevel.value L <= LogLevel.value (maximumConsoleLogLevel lg))%Z in
  let event_admits :=
    (LogLevel.value L <= LogLevel.value (maximumLogLevel lg))%Z in
  (console_lines out = [FormattedMessage msg] <-> console_admits) /\
  (console_lines out = [] <-> ~ console_admits) /\
  (log_events out = [msg] <-> event_admits) /\
  (log_events out = [] <-> ~ event_admits) /\
  (records_built out = 1 <->
     event_admits \/
     (LogLevel.value L <= LogLevel.value (maximumConsoleLogLevel lg))%Z) /\
  (out = [] <->
     (LogLevel.value L > LogLevel.value (maximumLogLevel lg))%Z /\
     (LogLevel.value L > LogLevel.value (maximumConsoleLogLevel lg))%Z) /\
  (let m := new_LogMessage now text LogLevel.Trace in
   AddLogMessage now text LogLevel.Trace
     {| logToConsole := true; maximumConsoleLogLevel := LogLevel.Info;
        maximumLogLevel := LogLevel.Trace |}
   = [Constructed m; Emit "log" m]).
Proof.
  intros out msg console_admits event_admits.
  subst out console_admits event_admits. rewrite AddLogMessage_cases.
  fold msg.
  destruct (LogLevel.leb L (maximumLogLevel lg)) eqn:He,
    (LogLevel.leb L (maximumConsoleLogLevel lg)) eqn:Hc,
    (logToConsole lg) eqn:Hl;
    try apply leb_le in He; try apply leb_gt in He;
    try apply leb_le in Hc; try apply leb_gt in Hc;
    (split_and!; [..| reflexivity]);
    (split; [intros H; try discriminate H | intros H]);
    try reflexivity; try lia; try (split; [reflexivity | lia]);
    try (intros [? ?]; (discriminate || lia));
    try (destruct H as [? ?]; (discriminate || lia));
    try (exfalso; apply H; split; (reflexivity || lia)).
Qed.

Lemma C5_witness :
  let lg := {| logToConsole := true; maximumConsoleLogLevel := LogLevel.Off;
               maximumLogLevel := LogLevel.Warn |} in
  let now := {| getHours := 9; getMinutes := 5; getSeconds := 30 |} in
  (LogLevel.value LogLevel.Warn <= LogLevel.value (maximumLogLevel lg))%Z /\
  log_events (Warn now "disk low" lg)
  = [new_LogMessage now "disk low" LogLevel.Warn] /\
  console_lines (Warn now "disk low" lg) = [] /\
  Debug now "cache hit" lg = [].
Proof.
  intros lg now.
  pose proof (C5_AddLogMessage_filters now "disk low" LogLevel.Warn lg)
    as (_ & [_ H2] & [_ H3] & _).
  pose proof (C5_AddLogMessage_filters now "cache hit" LogLevel.Debug lg)
    as (_ & _ & _ & _ & _ & [_ H6] & _).
  split; [simpl; lia|]. split; [apply H3; simpl; lia|].
  split; [apply H2; simpl; lia | apply H6; simpl; lia].
Defined.

(** The example of a logger with event threshold Warn and console
    threshold Off: the formatted text of the one record it emits. *)
Example formatted_warning :
  let now := {| getHours := 9; getMinutes := 5; getSeconds := 30 |} in
  FormattedMessage (new_LogMessage now "disk low" LogLevel.Warn)
  = "Warn : 9:5:30 : disk low".
Proof. reflexivity. Qed.

Lemma leb_Off (L : LogLevel.t) :
  L <> LogLevel.Off -> LogLevel.leb L LogLevel.Off = false.
Proof. by destruct L. Qed.

(** C6 as stated fails at the level [Off] itself, which [AddLogMessage]
    accepts as a message level: [Off <= Off]. *)
Lemma C6_counterexample :
  let lg := {| logToConsole := true; maximumConsoleLogLevel := LogLevel.Off;
               maximumLogLevel := LogLevel.Off |} in
  let now := {| getHours := 9; getMinutes := 5; getSeconds := 30 |} in
  let out := AddLogMessage now "x" LogLevel.Off lg in
  console_lines out = ["Off : 9:5:30 : x"] /\
  log_events out = [new_LogMessage now "x" LogLevel.Off] /\
  console_lines out <> [] /\ log_events out <> [].
Proof. by vm_compute. Qed.

(** C6 (amended). For every message level other than [Off], in particular
    for each of the public methods [Fatal] ... [Trace]: when
    [maximumConsoleLogLevel] is [Off] the call prints no console line, and
    when [maximumLogLevel] is [Off] it emits no event. *)
Theorem C6_Off_threshold_admits_nothing (now : Date) (text : string)
  (L : LogLevel.t) (lg : ButtplugLogger) :
  L <> LogLevel.Off ->
  (maximumConsoleLogLevel lg = LogLevel.Off ->
     console_lines (AddLogMessage now text L lg) = []) /\
  (maximumLogLevel lg = LogLevel.Off ->
     log_events (AddLogMessage now text L lg) = []) /\
  (forall method, method ∈ [Fatal; Error; Warn; Info; Debug; Trace] ->
     (maximumConsoleLogLevel lg = LogLevel.Off ->
        console_lines (method now text lg) = []) /\
     (maximumLogLevel lg = LogLevel.Off ->
        log_events (method now text lg) = [])).
Proof.
  intros HL.
  assert (forall L', L' <> LogLevel.Off ->
            (maximumConsoleLogLevel lg = LogLevel.Off ->
               console_lines (AddLogMessage now text L' lg) = []) /\
            (maximumLogLevel lg = LogLevel.Off ->
               log_events (AddLogMessage now text L' lg) = [])) as Hgen.
  { intros L' HL'. rewrite AddLogMessage_cases. split; intros ->.
    - rewrite (leb_Off _ HL'). by destruct (LogLevel.leb L' _).
    - rewrite (leb_Off _ HL').
      by destruct (LogLevel.leb L' _), (logToConsole lg). }
  split; [apply (Hgen L HL)|]. split; [apply (Hgen L HL)|].
  intros method Hm.
  repeat (apply elem_of_cons in Hm as [-> | Hm]; [by apply Hgen|]).
  by apply elem_of_nil in Hm.
Qed.

Lemma C6_witness :
  let lg := {| logToConsole := true; maximumConsoleLogLevel := LogLevel.Off;
               maximumLogLevel := LogLevel.Off |} in
  let now := {| getHours := 9; getMinutes := 5; getSeconds := 30 |} in
  LogLevel.Fatal <> LogLevel.Off /\
  maximumConsoleLogLevel lg = LogLevel.Off /\
  maximumLogLevel lg = LogLevel.Off /\
  console_lines (AddLogMessage now "x" LogLevel.Fatal lg) = [] /\
  log_events (AddLogMessage now "x" LogLevel.Fatal lg) = [].
Proof.
  intros lg now.
  assert (LogLevel.Fatal <> LogLevel.Off) as Hne by discriminate.
  pose proof (C6_Off_threshold_admits_nothing now "x" LogLevel.Fatal lg Hne)
    as (H1 & H2 & _).
  split; [exact Hne|]. split; [reflexivity|]. split; [reflexivity|].
  split; [apply H1; reflexivity | apply H2; reflexivity].
Defined.

(** *** Further properties of the logger *)

Lemma log_events_AddLogMessage (now : Date) (text : string) (L : LogLevel.t)
  (lg : ButtplugLogger) :
  log_events (AddLogMessage now text L lg)
  = if LogLevel.leb L (maximumLogLevel lg)
    then [new_LogMessage now text L] else [].
Proof.
  rewrite AddLogMessage_cases.
  by destruct (LogLevel.leb L (maximumLogLevel lg)),
    (LogLevel.leb L (maximumConsoleLogLevel lg)), (logToConsole lg).
Qed.

Lemma console_lines_AddLogMessage (now : Date) (text : string)
  (L : LogLevel.t) (lg : ButtplugLogger) :
  console_lines (AddLogMessage now text L lg)
  = if logToConsole lg && LogLevel.leb L (maximumConsoleLogLevel lg)
    then [FormattedMessage (new_LogMessage now text L)] else [].
Proof.
  rewrite AddLogMessage_cases.
  by destruct (LogLevel.leb L (maximumLogLevel lg)),
    (LogLevel.leb L (maximumConsoleLogLevel lg)), (logToConsole lg).
Qed.

Lemma leb_trans (a b c : LogLevel.t) :
  (LogLevel.value a <= LogLevel.value b)%Z ->
  LogLevel.leb b c = true -> LogLevel.leb a c = true.
Proof. rewrite !leb_le. lia. Qed.

(** X12. The filter is monotone. When a call at level [L] reaches a sink
    (emits its event, resp. prints its line), every call at a level no more
    verbose than [L] reaches that sink of the same logger too; and raising
    the threshold of a sink never drops a call that reached it. With
    threshold [Trace] every call emits its event. *)
Theorem filter_is_monotone (now now' : Date) (text text' : string)
  (L L' : LogLevel.t) (lg : ButtplugLogger) :
  (LogLevel.value L' <= LogLevel.value L)%Z ->
  (log_events (AddLogMessage now text L lg) <> [] ->
   log_events (AddLogMessage now' text' L' lg)
   = [new_LogMessage now' text' L']) /\
  (console_lines (AddLogMessage now text L lg) <> [] ->
   console_lines (AddLogMessage now' text' L' lg)
   = [FormattedMessage (new_LogMessage now' text' L')]) /\
  (forall T,
     (LogLevel.value (maximumLogLevel lg) <= LogLevel.value T)%Z ->
     log_events (AddLogMessage now text L lg) <> [] ->
     log_events (AddLogMessage now text L (set_MaximumLogLevel T lg))
     = log_events (AddLogMessage now text L lg)) /\
  (forall T,
     (LogLevel.value (maximumConsoleLogLevel lg) <= LogLevel.value T)%Z ->
     console_lines (AddLogMessage now text L lg) <> [] ->
     console_lines (AddLogMessage now text L (set_MaximumConsoleLogLevel T lg))
     = console_lines (AddLogMessage now text L lg)) /\
  (maximumLogLevel lg = LogLevel.Trace ->
   log_events (AddLogMessage now text L lg) = [new_LogMessage now text L]).
Proof.
  intros HL. rewrite !log_events_AddLogMessage, !console_lines_AddLogMessage.
  split_and!.
  - destruct (LogLevel.leb L (maximumLogLevel lg)) eqn:He; [|done].
    intros _. by rewrite (leb_trans _ _ _ HL He).
  - destruct (logToConsole lg); simpl; [|done].
    destruct (LogLevel.leb L (maximumConsoleLogLevel lg)) eqn:He; [|done].
    intros _. by rewrite (leb_trans _ _ _ HL He).
  - intros T HT. rewrite log_events_AddLogMessage. simpl.
    destruct (LogLevel.leb L (maximumLogLevel lg)) eqn:He; [|done].
    intros _. apply leb_le in He.
    assert (LogLevel.leb L T = true) as -> by (apply leb_le; lia). done.
  - intros T HT. rewrite console_lines_AddLogMessage. simpl.
    destruct (logToConsole lg); simpl; [|done].
    destruct (LogLevel.leb L (maximumConsoleLogLevel lg)) eqn:He; [|done].
    intros _. apply leb_le in He.
    assert (LogLevel.leb L T = true) as -> by (apply leb_le; lia). done.
  - intros ->. by destruct L.
Qed.

Lemma filter_is_monotone_witness :
  let lg := {| logToConsole := true; maximumConsoleLogLevel := LogLevel.Warn;
               maximumLogLevel := LogLevel.Info |} in
  let now := {| getHours := 9; getMinutes := 5; getSeconds := 30 |} in
  (LogLevel.value LogLevel.Error <= LogLevel.value LogLevel.Info)%Z /\
  log_events (Info now "ready" lg) <> [] /\
  log_events (Error now "failed" lg)
  = [new_LogMessage now "failed" LogLevel.Error].
Proof.
  intros lg now.
  assert (LogLevel.value LogLevel.Error <= LogLevel.value LogLevel.Info)%Z
    as Hle by (simpl; lia).
  assert (log_events (Info now "ready" lg) <> []) as Hne by discriminate.
  split; [exact Hle|]. split; [exact Hne|].
  exact (proj1 (filter_is_monotone now now "ready" "failed" LogLevel.Info
                  LogLevel.Error lg Hle) Hne).
Defined.

(** X13. The two sinks are configured independently: switching console
    output on or off and setting the console threshold never change the
    events a call emits, and setting the event threshold never changes the
    lines a call prints. *)
Theorem sinks_are_configured_independently (now : Date) (text : string)
  (L T : LogLevel.t) (b : bool) (lg : ButtplugLogger) :
  log_events (AddLogMessage now text L (set_ConsoleLogging b lg))
  = log_events (AddLogMessage now text L lg) /\
  log_events (AddLogMessage now text L (set_MaximumConsoleLogLevel T lg))
  = log_events (AddLogMessage now text L lg) /\
  console_lines (AddLogMessage now text L (set_MaximumLogLevel T lg))
  = console_lines (AddLogMessage now text L lg).
Proof.
  by rewrite !log_events_AddLogMessage, !console_lines_AddLogMessage.
Qed.

(** X14. Logging is off until it is configured: on a new logger every
    public level method does nothing at all, and it still does nothing when
    only console output is switched on, the console threshold being [Off];
    the instance that the first [Logger] access creates is such a logger. *)
Theorem new_logger_is_silent (now : Date) (text : string)
  (method : Date -> string -> ButtplugLogger -> list Action) :
  method ∈ [Fatal; Error; Warn; Info; Debug; Trace] ->
  method now text new_ButtplugLogger = [] /\
  method now text (set_ConsoleLogging true new_ButtplugLogger) = [] /\
  method now text (Logger None).1 = [].
Proof.
  intros Hm.
  repeat (apply elem_of_cons in Hm as [-> | Hm]; [done|]).
  by apply elem_of_nil in Hm.
Qed.

Lemma new_logger_is_silent_witness :
  let now := {| getHours := 9; getMinutes := 5; getSeconds := 30 |} in
  (Fatal ∈ [Fatal; Error; Warn; Info; Debug; Trace]) /\
  Fatal now "out of memory" new_ButtplugLogger = [].
Proof.
  intros now.
  assert (Fatal ∈ [Fatal; Error; Warn; Info; Debug; Trace]) as Hin
    by apply list_elem_of_here.
  split; [exact Hin|].
  exact (proj1 (new_logger_is_silent now "out of memory" Fatal Hin)).
Defined.

(** X15. The logger instance is created once. The first [Logger] access
    creates the default logger and stores it; every later access returns the
    stored instance unchanged; so what a setter wrote through one access is
    read through the next, and the other fields keep their values. *)
Theorem Logger_is_created_once (sLogger : option ButtplugLogger)
  (T : LogLevel.t) :
  let l := (Logger sLogger).1 in
  let s1 := (Logger sLogger).2 in
  s1 = Some l /\
  Logger s1 = (l, s1) /\
  (sLogger = None -> l = new_ButtplugLogger) /\
  (forall l0, sLogger = Some l0 -> l = l0 /\ s1 = sLogger) /\
  (let l' := (Logger (on_Logger (set_MaximumLogLevel T) sLogger)).1 in
   maximumLogLevel l' = T /\
   maximumConsoleLogLevel l' = maximumConsoleLogLevel l /\
   logToConsole l' = logToConsole l).
Proof.
  destruct sLogger as [l0|]; simpl; split_and!; try done.
  - intros l1 [= ->]. done.
Qed.

(** X16. [LogAndError] returns the error message built from its three
    arguments whatever the logger's configuration, also when nothing is
    logged; what it logs is one call at level [Error], so an event is
    emitted exactly when the event threshold is [Error] or more verbose, and
    with both thresholds [Off] or [Fatal] there is no action at all. *)
Theorem LogAndError_logs_at_Error (ButtplugMessage ErrorClass number : Type)
  (new_Error : string -> ErrorClass -> number -> ButtplugMessage)
  (now : Date) (aMsg : string) (aErrorClass : ErrorClass) (aMsgId : number)
  (lg : ButtplugLogger) :
  let r := LogAndError _ _ _ new_Error now aMsg aErrorClass aMsgId lg in
  r.2 = new_Error aMsg aErrorClass aMsgId /\
  (log_events r.1 = [new_LogMessage now aMsg LogLevel.Error] <->
   (LogLevel.value LogLevel.Error <= LogLevel.value (maximumLogLevel lg))%Z) /\
  (log_events r.1 = [] <->
   maximumLogLevel lg = LogLevel.Off \/ maximumLogLevel lg = LogLevel.Fatal) /\
  ((LogLevel.value (maximumLogLevel lg) < LogLevel.value LogLevel.Error)%Z ->
   (LogLevel.value (maximumConsoleLogLevel lg)
    < LogLevel.value LogLevel.Error)%Z ->
   r.1 = []).
Proof.
  intros r. subst r. unfold LogAndError, Error. cbn [fst snd].
  rewrite log_events_AddLogMessage, AddLogMessage_cases.
  split_and!; try done.
  - destruct (LogLevel.leb LogLevel.Error (maximumLogLevel lg)) eqn:He.
    + apply leb_le in He. done.
    + apply leb_gt in He. split; [done | lia].
  - destruct (maximumLogLevel lg); simpl; split; intros H; try done;
      try (by left); try (by right); by destruct H.
  - intros H1 H2.
    assert (LogLevel.leb LogLevel.Error (maximumLogLevel lg) = false) as ->
      by (apply leb_gt; lia).
    assert (LogLevel.leb LogLevel.Error (maximumConsoleLogLevel lg) = false)
      as -> by (apply leb_gt; lia).
    done.
Qed.

Lemma LogAndError_logs_at_Error_witness :
  let now := {| getHours := 9; getMinutes := 5; getSeconds := 30 |} in
  let r := LogAndError nat nat nat (fun _ cls id => cls + id) now
             "no such device" 3 7 new_ButtplugLogger in
  (LogLevel.value (maximumLogLevel new_ButtplugLogger)
   < LogLevel.value LogLevel.Error)%Z /\
  (LogLevel.value (maximumConsoleLogLevel new_ButtplugLogger)
   < LogLevel.value LogLevel.Error)%Z /\
  r.1 = [] /\ r.2 = 10.
Proof.
  intros now r.
  assert (LogLevel.value LogLevel.Off < LogLevel.value LogLevel.Error)%Z
    as Hlt by (simpl; lia).
  pose proof (LogAndError_logs_at_Error nat nat nat (fun _ cls id => cls + id)
                now "no such device" 3 7 new_ButtplugLogger)
    as (H1 & _ & _ & H2).
  split; [exact Hlt|]. split; [exact Hlt|].
  split; [exact (H2 Hlt Hlt) | exact H1].
Defined.

End LoggingProperties.
